(** * Fitai backend: metrics orchestration and subprocess bridge

    A shallow embedding of [backend/server.js] (the GarminDB service, the
    agent service and the Express route handlers) together with the
    properties its specification states about them.

    Conventions of the embedding:
    - JavaScript values are [JValue] trees; numbers are the integers the
      server manipulates ([Z]).
    - Every object the server hands around (the result of [JSON.parse], a
      fallback table entry) lives in a store, [heap], and is passed by
      address, so that the cache and a route handler holding the same
      object see each other's updates.
    - [garminCache] is a finite map from key strings to addresses.
    - The functions of the JavaScript runtime the server calls
      ([JSON.parse], [Date], [Math.random], the environment) are gathered
      in the [Runtime] interface; the theorems hold for every runtime.
    - A spawned process is described by the events it delivers to the
      handlers the server installs, each with its delay since the spawn;
      a process that cannot be started at all (an ['error'] event, for
      which the server installs no handler) is outside the model.
    - An async function is run up to its [await], the event loop is run
      until the awaited promise settles, and the function resumes; other
      requests are served before or after it, not in between.  What the
      handlers of a bridge call do after its promise has settled (a late
      timer, a late ['close']) is recorded when the call is awaited.
    - [console.error] lines are kept; [console.log] lines are not.

    Of the mobile app, [services/apiClient.js] and the screens
    [Dashboard.js] and [ChatAgent.js] are embedded in [Mobile], as far as
    they decide what the user sees of the server's answers.
    [screens/DataSync.js] is not: it reads [Platform.OS] at module level
    without importing [Platform], so the module throws when it is
    imported and none of its handlers ever runs. *)

From Stdlib Require Import ZArith Lia String Ascii List.
From stdpp Require Import gmap strings list fin_maps pretty.

Local Open Scope Z_scope.
Local Open Scope string_scope.

(** ** JavaScript values *)

#[local] Set Warnings "-register-all".

Inductive JValue : Type :=
| JUndefined
| JNull
| JBool (b : bool)
| JNum (n : Z)
| JStr (s : string)
| JArr (items : list JValue)
| JObj (fields : list (string * JValue))
| JNative (name : string).

(** [if (v)]: the values JavaScript treats as false. *)
Definition truthy (v : JValue) : bool :=
  match v with
  | JUndefined | JNull => false
  | JBool b => b
  | JNum n => negb (Z.eqb n 0)
  | JStr s => match s with EmptyString => false | String _ _ => true end
  | JArr _ | JObj _ | JNative _ => true
  end.

Fixpoint assoc (k : string) (fields : list (string * JValue)) : option JValue :=
  match fields with
  | [] => None
  | (k', v) :: rest => if String.eqb k k' then Some v else assoc k rest
  end.

(** Properties every object literal inherits from [Object.prototype]. *)
Definition object_prototype : list string :=
  [ "constructor"; "__proto__"; "hasOwnProperty"; "isPrototypeOf";
    "propertyIsEnumerable"; "toLocaleString"; "toString"; "valueOf";
    "__defineGetter__"; "__defineSetter__"; "__lookupGetter__";
    "__lookupSetter__" ].

Definition inherited (k : string) : bool :=
  existsb (String.eqb k) object_prototype.

(** [o[k]] on an object literal: own property, else inherited, else
    [undefined]. *)
Definition obj_get (k : string) (fields : list (string * JValue)) : JValue :=
  match assoc k fields with
  | Some v => v
  | None => if inherited k then JNative k else JUndefined
  end.

(** [v.k]: reading a property of [null] or [undefined] throws a TypeError
    ([None]); primitives and arrays have none of the properties the server
    reads. *)
Definition get_prop (k : string) (v : JValue) : option JValue :=
  match v with
  | JUndefined | JNull => None
  | JObj fields => Some (obj_get k fields)
  | _ => Some JUndefined
  end.

Fixpoint set_field (k : string) (x : JValue) (fields : list (string * JValue))
  : list (string * JValue) :=
  match fields with
  | [] => [(k, x)]
  | (k', v) :: rest =>
      if String.eqb k k' then (k', x) :: rest else (k', v) :: set_field k x rest
  end.

(** [v.k = x] on a value already known not to be [null]/[undefined]. *)
Definition set_prop (k : string) (x : JValue) (v : JValue) : JValue :=
  match v with
  | JObj fields => JObj (set_field k x fields)
  | _ => v
  end.

(** [a || b] *)
Definition js_or (a b : JValue) : JValue := if truthy a then a else b.

(** [hay.includes(needle)] *)
Fixpoint includes (needle hay : string) : bool :=
  String.prefix needle hay ||
  match hay with
  | EmptyString => false
  | String _ rest => includes needle rest
  end.

(** ** The runtime interface *)

Record Runtime : Type := {
  (** [JSON.parse]: [None] when it throws *)
  JSON_parse : string -> option JValue;
  (** [new Date(t).toDateString()], [t] in milliseconds since the epoch *)
  toDateString : Z -> string;
  (** [new Date(t).toISOString()] *)
  toISOString : Z -> string;
  (** the [i]-th value [Math.random()] returns, as the numerator [m] of
      [m / 2^53] *)
  Math_random : nat -> Z;
  (** [process.env.GARMINDB_PATH || path.join(process.env.HOME, 'GarminDB')] *)
  garmindbPath : string;
  (** [path.join(__dirname, 'garmindb_service.py')] *)
  pythonService : string
}.

(** A value of [Math.random()] lies in [0, 1). *)
Definition unit_interval (m : Z) : Prop := 0 <= m < 2 ^ 53.

(** The double nearest to [n / 2^53], again as a numerator over [2^53].
    A double has a significand of 53 bits: an [n] of at most 53 bits is
    a double as it is, and of a longer one the low [shift] bits are
    rounded away, to the nearest multiple of [2^shift] and on a tie to
    the one with the even significand. *)
Definition round_to_double (n : Z) : Z :=
  let shift := Z.log2 n - 52 in
  if (shift <=? 0)%Z then n
  else
    let q := n / 2 ^ shift in
    let r := n mod 2 ^ shift in
    let half := 2 ^ (shift - 1) in
    (if (r <? half)%Z || ((r =? half)%Z && Z.even q) then q else q + 1)
    * 2 ^ shift.

(** [Math.floor(r * k)] for [r = m / 2^53] and an integer [k]: the
    product is rounded to a double, and that double is floored. *)
Definition floor_scaled (m k : Z) : Z := round_to_double (m * k) / 2 ^ 53.

Section Fallback.
Context (rt : Runtime).

(** The table [getFallbackData] builds on every call: six draws of
    [Math.random] starting at draw [i], the clock read at [t]. *)
Definition fallbackData (i : nat) (t : Z) : list (string * JValue) :=
  [ ("get_latest_metrics", JObj
      [ ("steps", JNum (floor_scaled (Math_random rt i) 5000 + 5000));
        ("averageHeartRate", JNum (floor_scaled (Math_random rt (i + 1)%nat) 20 + 70));
        ("sleepScore", JNum (floor_scaled (Math_random rt (i + 2)%nat) 30 + 70));
        ("stressLevel", JNum (floor_scaled (Math_random rt (i + 3)%nat) 40 + 20));
        ("bodyBattery", JNum (floor_scaled (Math_random rt (i + 4)%nat) 40 + 60));
        ("restingHeartRate", JNum (floor_scaled (Math_random rt (i + 5)%nat) 15 + 55));
        ("lastActivity", JObj
          [ ("activityName", JStr "Morning Walk");
            ("sport", JStr "walking");
            ("distance", JNum 3200);
            ("calories", JNum 180) ]);
        ("recoveryStatus", JStr "Demo Mode - Good Recovery");
        ("recoveryAdvice",
          JStr "This is demo data. Connect your Garmin device for real insights.");
        ("timestamp", JStr (toISOString rt t));
        ("dataSource", JStr "fallback") ]);
    ("sync_data", JObj
      [ ("success", JBool false);
        ("message", JStr "GarminDB not available - using demo data");
        ("lastSync", JStr (toISOString rt t)) ]);
    ("get_weekly_summary", JObj
      [ ("weekly_steps", JArr
          [ JArr [JStr "2024-01-15"; JNum 8500];
            JArr [JStr "2024-01-16"; JNum 12000];
            JArr [JStr "2024-01-17"; JNum 6200];
            JArr [JStr "2024-01-18"; JNum 9800];
            JArr [JStr "2024-01-19"; JNum 11500];
            JArr [JStr "2024-01-20"; JNum 7300];
            JArr [JStr "2024-01-21"; JNum 10200] ]);
        ("activity_count", JNum 4);
        ("avg_distance", JNum 5000);
        ("total_calories", JNum 1200);
        ("period", JStr "Last 7 days (Demo)") ]) ].

(** [getFallbackData(action)]:
    [return fallbackData[action] || { error: 'Unknown action' }] *)
Definition getFallbackData (i : nat) (t : Z) (action : string) : JValue :=
  js_or (obj_get action (fallbackData i t))
        (JObj [("error", JStr "Unknown action")]).

End Fallback.

(** Number of [Math.random()] calls one [getFallbackData] makes. *)
Definition fallback_draws : nat := 6.

(** A numeric field of a snapshot lies in [lo, hi]. *)
Definition field_in (k : string) (lo hi : Z) (v : JValue) : Prop :=
  exists n, get_prop k v = Some (JNum n) /\ lo <= n <= hi.

(** ** Spawned processes and promises *)

(** What a child process delivers to the handlers installed on it:
    [stdout.on('data')], [stderr.on('data')] and [on('close')], whose code
    is [null] when the process was ended by a signal. *)
Inductive ProcEvent : Type :=
| StdoutData (chunk : string)
| StderrData (chunk : string)
| Close (code : option Z).

(** The events of one process, each with its delay in milliseconds since
    the spawn. *)
Definition Trace : Type := list (Z * ProcEvent).

Inductive Settle : Type :=
| Resolved (v : JValue)
| Rejected (message : string).

(** The variables a bridge call closes over, and the bookkeeping of its
    promise: [settled] keeps the first [resolve]/[reject] and the delay at
    which it happened. *)
Record Run : Type := {
  result : string;
  error : string;
  settled : option (Z * Settle);
  timer_fired : bool;
  killed : bool;
  drawn : nat;
  errors_logged : list string
}.

Definition fresh_run : Run :=
  {| result := EmptyString; error := EmptyString; settled := None; timer_fired := false;
     killed := false; drawn := 0; errors_logged := [] |}.

(** [resolve(v)] and [reject(e)]: only the first call settles a promise. *)
Definition settle (dt : Z) (o : Settle) (r : Run) : Run :=
  match settled r with
  | Some _ => r
  | None =>
      {| result := result r; error := error r; settled := Some (dt, o);
         timer_fired := timer_fired r; killed := killed r; drawn := drawn r;
         errors_logged := errors_logged r |}
  end.

Definition append_result (chunk : string) (r : Run) : Run :=
  {| result := result r +:+ chunk; error := error r; settled := settled r;
     timer_fired := timer_fired r; killed := killed r; drawn := drawn r;
     errors_logged := errors_logged r |}.

Definition append_error (chunk : string) (r : Run) : Run :=
  {| result := result r; error := error r +:+ chunk; settled := settled r;
     timer_fired := timer_fired r; killed := killed r; drawn := drawn r;
     errors_logged := errors_logged r |}.

Definition console_error_run (line : string) (r : Run) : Run :=
  {| result := result r; error := error r; settled := settled r;
     timer_fired := timer_fired r; killed := killed r; drawn := drawn r;
     errors_logged := errors_logged r ++ [line] |}.

Definition draw_run (n : nat) (r : Run) : Run :=
  {| result := result r; error := error r; settled := settled r;
     timer_fired := timer_fired r; killed := killed r;
     drawn := (drawn r + n)%nat; errors_logged := errors_logged r |}.

(** The [setTimeout] callback starts with [pythonProcess.kill()]. *)
Definition kill_run (r : Run) : Run :=
  {| result := result r; error := error r; settled := settled r;
     timer_fired := true; killed := true; drawn := drawn r;
     errors_logged := errors_logged r |}.

(** The event loop of one bridge call: events are delivered in order; the
    timeout callback, which nothing cancels, runs once, before the first
    event that is not earlier than it or after the last event. *)
Section Process.
Context (timeout : Z) (on_timeout : Run -> Run)
        (on_event : Z -> ProcEvent -> Run -> Run).

Definition deliver (r : Run) (e : Z * ProcEvent) : Run :=
  let r1 := if timer_fired r then r
            else if (timeout <=? fst e)%Z then on_timeout r else r in
  on_event (fst e) (snd e) r1.

Definition run_process (proc : Trace) : Run :=
  let r := foldl deliver fresh_run proc in
  if timer_fired r then r else on_timeout r.
End Process.

(** ** Server state *)

Record Spawn : Type := {
  command : string;
  script : string;
  (** the document passed as [JSON.stringify(payload)] *)
  payload : JValue
}.

Record State : Type := {
  (** the clock, milliseconds since the epoch *)
  now : Z;
  (** every object created so far, at its address *)
  heap : list JValue;
  garminCache : gmap string nat;
  (** pending [setTimeout(() => delete garminCache[cacheKey], ...)]: due
      time and key *)
  timers : list (Z * string);
  (** every [spawn] so far, oldest first *)
  spawned : list Spawn;
  (** [console.error] lines *)
  console : list string;
  (** number of [Math.random()] calls so far *)
  draws : nat
}.

Definition set_cache (c : gmap string nat) (s : State) : State :=
  {| now := now s; heap := heap s; garminCache := c; timers := timers s;
     spawned := spawned s; console := console s; draws := draws s |}.

Definition set_heap (h : list JValue) (s : State) : State :=
  {| now := now s; heap := h; garminCache := garminCache s; timers := timers s;
     spawned := spawned s; console := console s; draws := draws s |}.

Definition setTimeout (delay : Z) (key : string) (s : State) : State :=
  {| now := now s; heap := heap s; garminCache := garminCache s;
     timers := timers s ++ [(now s + delay, key)];
     spawned := spawned s; console := console s; draws := draws s |}.

Definition spawn (p : Spawn) (s : State) : State :=
  {| now := now s; heap := heap s; garminCache := garminCache s;
     timers := timers s; spawned := spawned s ++ [p];
     console := console s; draws := draws s |}.

Definition console_error (line : string) (s : State) : State :=
  {| now := now s; heap := heap s; garminCache := garminCache s;
     timers := timers s; spawned := spawned s;
     console := console s ++ [line]; draws := draws s |}.

Definition draw (n : nat) (s : State) : State :=
  {| now := now s; heap := heap s; garminCache := garminCache s;
     timers := timers s; spawned := spawned s;
     console := console s; draws := (draws s + n)%nat |}.

(** A new object: its address is the next free one. *)
Definition alloc (v : JValue) (s : State) : nat * State :=
  (length (heap s), set_heap (heap s ++ [v]) s).

Definition deref (s : State) (r : nat) : JValue :=
  default JUndefined (heap s !! r).

(** The cache-eviction callbacks that are due at [t]. *)
Definition due (t : Z) (p : Z * string) : Prop := fst p <= t.

#[local] Instance due_dec t p : Decision (due t p).
Proof. unfold due. apply _. Defined.

Definition expire (c : gmap string nat) (fired : list (Z * string))
  : gmap string nat :=
  foldl (fun c p => delete (snd p) c) c fired.

(** The event loop reaches time [t]: the eviction callbacks due by then
    have run. *)
Definition advance (t : Z) (s : State) : State :=
  {| now := t; heap := heap s;
     garminCache := expire (garminCache s) (filter (due t) (timers s));
     timers := filter (fun p => ~ due t p) (timers s);
     spawned := spawned s; console := console s; draws := draws s |}.

(** The handlers of a bridge call wrote [lines] with [console.error]. *)
Definition console_errors (lines : list string) (s : State) : State :=
  {| now := now s; heap := heap s; garminCache := garminCache s;
     timers := timers s; spawned := spawned s;
     console := console s ++ lines; draws := draws s |}.

(** The state in which an async function resumes from a bridge call
    that settled after [dt] milliseconds. *)
Definition resumed (r : Run) (dt : Z) (s : State) : State :=
  draw (drawn r) (console_errors (errors_logged r) (advance (now s + dt) s)).

(** What [await] hands back to an async function. *)
Inductive Awaited : Type :=
| Value (ref : nat)
| Thrown (message : string).

(** [await promise]: the function resumes when the promise has settled,
    [None] if it never does.  The clock has moved on by the delay of the
    settlement, and the effects of the bridge's handlers on the console
    and on [Math.random] are recorded. *)
Definition await (r : Run) (s : State) : option (Awaited * State) :=
  match settled r with
  | None => None
  | Some (dt, o) =>
      let s2 := resumed r dt s in
      match o with
      | Resolved v => let '(a, s3) := alloc v s2 in Some (Value a, s3)
      | Rejected m => Some (Thrown m, s2)
      end
  end.

(** ** [class GarminDBService] *)

Section Server.
Context (rt : Runtime).

Section GarminBridge.
(** The call's [action], the clock at the spawn and the number of
    [Math.random()] calls made before it. *)
Context (action : string) (t0 : Z) (i0 : nat).

(** [resolve(this.getFallbackData(action))] at delay [dt]. *)
Definition resolve_fallback (dt : Z) (r : Run) : Run :=
  let v := getFallbackData rt (i0 + drawn r) (t0 + dt) action in
  settle dt (Resolved v) (draw_run fallback_draws r).

(** [pythonProcess.on('close', (code) => ...)] *)
Definition garmin_on_close (dt : Z) (code : option Z) (r : Run) : Run :=
  match code with
  | Some 0 =>
      match JSON_parse rt (result r) with
      | Some response => settle dt (Resolved response) r
      | None => resolve_fallback dt (console_error_run "Parse error:" r)
      end
  | _ =>
      resolve_fallback dt
        (console_error_run ("GarminDB service failed: " +:+ error r) r)
  end.

Definition garmin_on_event (dt : Z) (e : ProcEvent) (r : Run) : Run :=
  match e with
  | StdoutData chunk => append_result chunk r
  | StderrData chunk => append_error chunk r
  | Close code => garmin_on_close dt code r
  end.

(** [setTimeout(() => { pythonProcess.kill(); resolve(...) }, 15000)] *)
Definition garmin_on_timeout (r : Run) : Run :=
  resolve_fallback 15000 (kill_run r).

Definition garmin_run (proc : Trace) : Run :=
  run_process 15000 garmin_on_timeout garmin_on_event proc.
End GarminBridge.

(** [callGarminDBService(action, params)]: spawns the Python service
    and returns the promise; [proc] is what the spawned process does. *)
Definition callGarminDBService (action : string) (params : JValue)
    (proc : Trace) (s : State) : Run * State :=
  let payload := JObj [ ("action", JStr action);
                        ("params", params);
                        ("garmindb_path", JStr (garmindbPath rt)) ] in
  let s1 := spawn {| command := "python3"; script := pythonService rt;
                     payload := payload |} s in
  (garmin_run action (now s) (draws s) proc, s1).

(** [getFallbackData] called from a service method. *)
Definition fallback_now (action : string) (s : State) : nat * State :=
  alloc (getFallbackData rt (draws s) (now s) action) (draw fallback_draws s).

Definition cacheKey_of (userId : string) (t : Z) : string :=
  "metrics_" +:+ userId +:+ "_" +:+ toDateString rt t.

(** [if (garminCache[cacheKey]) return garminCache[cacheKey]] *)
Definition cache_hit (key : string) (s : State) : option nat :=
  match garminCache s !! key with
  | Some a => if truthy (deref s a) then Some a else None
  | None => None
  end.

Definition user_params (userId : string) : JValue :=
  JObj [("user_id", JStr userId)].

(** The [try] block of [getLatestMetrics] after the [await]. *)
Definition cache_metrics (cacheKey : string) (metrics : nat) (s : State)
  : nat * State :=
  (metrics,
   setTimeout 1800000 cacheKey
     (set_cache (<[cacheKey := metrics]> (garminCache s)) s)).

Definition getLatestMetrics (userId : string) (proc : Trace) (s : State)
  : option (nat * State) :=
  let cacheKey := cacheKey_of userId (now s) in
  match cache_hit cacheKey s with
  | Some a => Some (a, s)
  | None =>
      let '(p, s1) := callGarminDBService "get_latest_metrics"
                        (user_params userId) proc s in
      match await p s1 with
      | None => None
      | Some (Value metrics, s2) => Some (cache_metrics cacheKey metrics s2)
      | Some (Thrown _, s2) =>
          Some (fallback_now "get_latest_metrics"
                  (console_error "Error fetching GarminDB metrics:" s2))
      end
  end.

(** [Object.keys(garminCache).forEach(key => { if (key.includes(userId))
    delete garminCache[key] })] *)
Definition clear_keys (userId : string) (keys : list string)
    (c : gmap string nat) : gmap string nat :=
  foldl (fun c key => if includes userId key then delete key c else c) c keys.

Definition clear_cache (userId : string) (s : State) : State :=
  set_cache (clear_keys userId (map fst (map_to_list (garminCache s)))
               (garminCache s)) s.

Definition syncGarminData (userId : string) (proc : Trace) (s : State)
  : option (nat * State) :=
  let '(p, s1) := callGarminDBService "sync_data" (user_params userId) proc s in
  match await p s1 with
  | None => None
  | Some (Value result, s2) => Some (result, clear_cache userId s2)
  | Some (Thrown _, s2) =>
      Some (fallback_now "sync_data"
              (console_error "Error syncing GarminDB:" s2))
  end.

Definition getWeeklySummary (userId : string) (proc : Trace) (s : State)
  : option (nat * State) :=
  let '(p, s1) := callGarminDBService "get_weekly_summary"
                    (user_params userId) proc s in
  match await p s1 with
  | None => None
  | Some (Value summary, s2) => Some (summary, s2)
  | Some (Thrown _, s2) =>
      Some (fallback_now "get_weekly_summary"
              (console_error "Error getting weekly summary:" s2))
  end.

Definition status_unavailable : JValue :=
  JObj [ ("connected", JBool false);
         ("status", JStr "GarminDB not available");
         ("setup_required", JBool true);
         ("message", JStr "Please install and configure GarminDB") ].

Definition checkGarminDBStatus (proc : Trace) (s : State)
  : option (nat * State) :=
  let '(p, s1) := callGarminDBService "check_status" (JObj []) proc s in
  match await p s1 with
  | None => None
  | Some (Value result, s2) => Some (result, s2)
  | Some (Thrown _, s2) => Some (alloc status_unavailable s2)
  end.

(** ** [class AgentService] *)

(** [pythonProcess.on('close', (code) => ...)] of [callAgent] *)
Definition agent_on_close (dt : Z) (code : option Z) (r : Run) : Run :=
  match code with
  | Some 0 =>
      match JSON_parse rt (result r) with
      | Some response => settle dt (Resolved response) r
      | None => settle dt (Rejected "Failed to parse agent response") r
      end
  | _ => settle dt (Rejected ("Agent process failed: " +:+ error r)) r
  end.

Definition agent_on_event (dt : Z) (e : ProcEvent) (r : Run) : Run :=
  match e with
  | StdoutData chunk => append_result chunk r
  | StderrData chunk => append_error chunk r
  | Close code => agent_on_close dt code r
  end.

Definition agent_on_timeout (r : Run) : Run :=
  settle 30000 (Rejected "Agent request timeout") (kill_run r).

(** A parameter with default [d]: used when the argument is missing or
    [undefined]. *)
Definition default_arg (d v : JValue) : JValue :=
  match v with JUndefined => d | _ => v end.

(** [callAgent(requestType, data, message = null)] *)
Definition callAgent (requestType data message : JValue)
    (proc : Trace) (s : State) : Run * State :=
  let message := default_arg JNull message in
  let payload := JObj [ ("request_type", requestType);
                        ("data", data);
                        ("message", message) ] in
  let s1 := spawn {| command := "python3";
                     script := "./agents/fitness_ai_single.py";
                     payload := payload |} s in
  (run_process 30000 agent_on_timeout agent_on_event proc, s1).

(** ** Routes *)

Record Request : Type := {
  (** [req.headers['user-id']] *)
  user_id : option string;
  (** [req.body], as [express.json()] leaves it *)
  body : JValue
}.

(** [res.status(...).json(...)]; [res.json] alone answers 200. *)
Record Response : Type := {
  status : Z;
  json : JValue
}.

(** [req.headers['user-id'] || 'demo-user'] *)
Definition userId_of (req : Request) : string :=
  match user_id req with
  | Some (String c rest) => String c rest
  | _ => "demo-user"
  end.

(** [v === 'fallback'] *)
Definition is_fallback (v : JValue) : bool :=
  match v with
  | JStr x => String.eqb x "fallback"
  | _ => false
  end.

Definition demoNotice : JValue :=
  JStr ("This is demo data. To get real data: 1) Install GarminDB, " +:+
        "2) Sync your Garmin device, 3) Restart the server").

(** [app.get('/garmin/latest-metrics', ...)] *)
Definition latest_metrics_route (req : Request) (proc : Trace) (s : State)
  : option (Response * State) :=
  let userId := userId_of req in
  match getLatestMetrics userId proc s with
  | None => None
  | Some (metrics, s1) =>
      match get_prop "dataSource" (deref s1 metrics) with
      | Some dataSource =>
          let s2 := if is_fallback dataSource
                    then set_heap (<[metrics :=
                           set_prop "demoNotice" demoNotice (deref s1 metrics)]>
                           (heap s1)) s1
                    else s1 in
          Some ({| status := 200; json := deref s2 metrics |}, s2)
      | None =>
          Some ({| status := 500;
                   json := JObj
                     [ ("error", JStr "Failed to fetch metrics");
                       ("suggestion",
                         JStr "Check if GarminDB is installed and configured") ] |},
                console_error "Error fetching metrics:" s1)
      end
  end.

(** [app.post('/garmin/sync', ...)] *)
Definition sync_route (req : Request) (proc : Trace) (s : State)
  : option (Response * State) :=
  let userId := userId_of req in
  match syncGarminData userId proc s with
  | None => None
  | Some (result, s1) =>
      Some ({| status := 200; json := deref s1 result |}, s1)
  end.

(** [app.get('/garmin/weekly-summary', ...)] *)
Definition weekly_summary_route (req : Request) (proc : Trace) (s : State)
  : option (Response * State) :=
  let userId := userId_of req in
  match getWeeklySummary userId proc s with
  | None => None
  | Some (summary, s1) =>
      Some ({| status := 200; json := deref s1 summary |}, s1)
  end.

Definition analyze_failure : Response :=
  {| status := 500;
     json := JObj
       [ ("error", JStr "Analysis failed");
         ("insights", JArr
           [ JObj
               [ ("title", JStr "🤖 AI Coach Status");
                 ("content",
                   JStr ("Your AI agents are getting ready! In the meantime, " +:+
                         "sync your Garmin data for personalized insights."));
                 ("type", JStr "info");
                 ("agent", JStr "system") ] ]) ] |}.

(** [app.post('/agent/analyze', ...)] *)
Definition analyze_route (req : Request) (proc : Trace) (s : State)
  : option (Response * State) :=
  match get_prop "request_type" (body req), get_prop "data" (body req) with
  | Some request_type, Some data =>
      let '(p, s1) := callAgent request_type data JUndefined proc s in
      match await p s1 with
      | None => None
      | Some (Value response, s2) =>
          Some ({| status := 200; json := deref s2 response |}, s2)
      | Some (Thrown _, s2) =>
          Some (analyze_failure, console_error "Agent analysis error:" s2)
      end
  | _, _ => Some (analyze_failure, console_error "Agent analysis error:" s)
  end.

Definition chat_failure : Response :=
  {| status := 500;
     json := JObj
       [ ("response",
           JStr ("I'm getting ready to help you! Please make sure your " +:+
                 "Garmin data is synced and try again."));
         ("agent_type", JStr "system") ] |}.

(** [app.post('/agent/chat', ...)]; [mproc] is the process spawned for
    the metrics (if any), [aproc] the agent's. *)
Definition chat_route (req : Request) (mproc aproc : Trace) (s : State)
  : option (Response * State) :=
  match get_prop "message" (body req),
        get_prop "conversation_history" (body req) with
  | Some message, Some conversation_history =>
      let userId := userId_of req in
      match getLatestMetrics userId mproc s with
      | None => None
      | Some (metrics, s1) =>
          let '(p, s2) := callAgent (JStr "chat") (deref s1 metrics) message
                            aproc s1 in
          match await p s2 with
          | None => None
          | Some (Value response, s3) =>
              Some ({| status := 200; json := deref s3 response |}, s3)
          | Some (Thrown _, s3) =>
              Some (chat_failure, console_error "Chat agent error:" s3)
          end
      end
  | _, _ => Some (chat_failure, console_error "Chat agent error:" s)
  end.

End Server.

(** ** A reference runtime

    One implementation of the [Runtime] interface, with which the
    definitions above run on concrete requests: a JSON reader for
    documents without white space and escapes, a server whose local time
    zone is UTC, and a fixed sequence of random draws. *)

Module Node.

Definition quote : ascii := ascii_of_nat 34.

Definition is_digit (c : ascii) : bool :=
  (48 <=? nat_of_ascii c)%nat && (nat_of_ascii c <=? 57)%nat.

Fixpoint digits (acc : Z) (l : list ascii) : Z * list ascii :=
  match l with
  | c :: rest =>
      if is_digit c
      then digits (10 * acc + Z.of_nat (nat_of_ascii c - 48)) rest
      else (acc, l)
  | [] => (acc, l)
  end.

Fixpoint chars (acc : string) (l : list ascii) : option (string * list ascii) :=
  match l with
  | [] => None
  | c :: rest =>
      if Ascii.eqb c quote then Some (acc, rest)
      else chars (acc +:+ String c EmptyString) rest
  end.

Definition expect (c : ascii) (l : list ascii) : option (list ascii) :=
  match l with
  | c' :: rest => if Ascii.eqb c c' then Some rest else None
  | [] => None
  end.

Definition literal (word : string) (v : JValue) (l : list ascii)
  : option (JValue * list ascii) :=
  let w := list_ascii_of_string word in
  if decide (take (length w) l = w) then Some (v, drop (length w) l) else None.

Fixpoint value (fuel : nat) (l : list ascii) : option (JValue * list ascii) :=
  match fuel with
  | O => None
  | S fuel =>
      match l with
      | [] => None
      | c :: rest =>
          if Ascii.eqb c "n" then literal "null" JNull l
          else if Ascii.eqb c "t" then literal "true" (JBool true) l
          else if Ascii.eqb c "f" then literal "false" (JBool false) l
          else if Ascii.eqb c quote then
            '(s, l1) ← chars EmptyString rest; Some (JStr s, l1)
          else if Ascii.eqb c "-" then
            match rest with
            | d :: _ => if is_digit d
                        then let '(n, l1) := digits 0 rest in Some (JNum (- n), l1)
                        else None
            | [] => None
            end
          else if is_digit c then
            let '(n, l1) := digits 0 l in Some (JNum n, l1)
          else if Ascii.eqb c "[" then
            match rest with
            | d :: rest' =>
                if Ascii.eqb d "]" then Some (JArr [], rest')
                else '(vs, l1) ← items fuel rest; Some (JArr vs, l1)
            | [] => None
            end
          else if Ascii.eqb c "{" then
            match rest with
            | d :: rest' =>
                if Ascii.eqb d "}" then Some (JObj [], rest')
                else '(fs, l1) ← members fuel rest; Some (JObj fs, l1)
            | [] => None
            end
          else None
      end
  end
with items (fuel : nat) (l : list ascii) : option (list JValue * list ascii) :=
  match fuel with
  | O => None
  | S fuel =>
      '(v, l1) ← value fuel l;
      match l1 with
      | c :: rest =>
          if Ascii.eqb c "]" then Some ([v], rest)
          else if Ascii.eqb c ","
          then '(vs, l2) ← items fuel rest; Some (v :: vs, l2)
          else None
      | [] => None
      end
  end
with members (fuel : nat) (l : list ascii)
  : option (list (string * JValue) * list ascii) :=
  match fuel with
  | O => None
  | S fuel =>
      l1 ← expect quote l;
      '(k, l2) ← chars EmptyString l1;
      l3 ← expect ":" l2;
      '(v, l4) ← value fuel l3;
      match l4 with
      | c :: rest =>
          if Ascii.eqb c "}" then Some ([(k, v)], rest)
          else if Ascii.eqb c ","
          then '(fs, l5) ← members fuel rest; Some ((k, v) :: fs, l5)
          else None
      | [] => None
      end
  end.

(** A document is one value and nothing after it. *)
Definition parse (doc : string) : option JValue :=
  match value (S (String.length doc)) (list_ascii_of_string doc) with
  | Some (v, []) => Some v
  | _ => None
  end.

(** The proleptic Gregorian calendar date of a day number (days since
    1970-01-01): year, month, day of the month. *)
Definition civil (days : Z) : Z * Z * Z :=
  let z := days + 719468 in
  let era := z / 146097 in
  let doe := z - era * 146097 in
  let yoe := (doe - doe / 1460 + doe / 36524 - doe / 146096) / 365 in
  let doy := doe - (365 * yoe + yoe / 4 - yoe / 100) in
  let mp := (5 * doy + 2) / 153 in
  let d := doy - (153 * mp + 2) / 5 + 1 in
  let m := if Z.ltb mp 10 then mp + 3 else mp - 9 in
  let y := yoe + era * 400 + (if Z.leb m 2 then 1 else 0) in
  (y, m, d).

Definition pad (width : nat) (n : Z) : string :=
  let s := pretty n in
  String.concat EmptyString (replicate (width - String.length s) "0") +:+ s.

Definition day_name (days : Z) : string :=
  nth (Z.to_nat ((days + 4) mod 7))
      ["Sun"; "Mon"; "Tue"; "Wed"; "Thu"; "Fri"; "Sat"] EmptyString.

Definition month_name (m : Z) : string :=
  nth (Z.to_nat (m - 1))
      ["Jan"; "Feb"; "Mar"; "Apr"; "May"; "Jun";
       "Jul"; "Aug"; "Sep"; "Oct"; "Nov"; "Dec"] EmptyString.

Definition dateString (t : Z) : string :=
  let days := t / 86400000 in
  let '(y, m, d) := civil days in
  day_name days +:+ " " +:+ month_name m +:+ " " +:+ pad 2 d +:+ " " +:+ pretty y.

Definition isoString (t : Z) : string :=
  let days := t / 86400000 in
  let ms := t mod 86400000 in
  let '(y, m, d) := civil days in
  pad 4 y +:+ "-" +:+ pad 2 m +:+ "-" +:+ pad 2 d +:+ "T" +:+
  pad 2 (ms / 3600000) +:+ ":" +:+ pad 2 (ms / 60000 mod 60) +:+ ":" +:+
  pad 2 (ms / 1000 mod 60) +:+ "." +:+ pad 3 (ms mod 1000) +:+ "Z".

Definition random (i : nat) : Z :=
  (Z.of_nat (S i) * 6364136223846793005) mod 2 ^ 53.

Definition runtime : Runtime :=
  {| JSON_parse := parse;
     toDateString := dateString;
     toISOString := isoString;
     Math_random := random;
     garmindbPath := "/home/fitai/GarminDB";
     pythonService := "/srv/backend/garmindb_service.py" |}.

(** Midnight of 2026-01-01 UTC. *)
Definition new_year_2026 : Z := 1767225600000.

Definition dq (s : string) : string :=
  String quote EmptyString +:+ s +:+ String quote EmptyString.

End Node.

(** ** The bridge contract of the specification

    [invoke(program, request, timeout) -> BridgeResponse] as section 4.1
    words it, over the same description of a process: a tagged result,
    [Ok] with the parsed document or [Err] with the kind of failure and
    its message (the captured stderr, the raw output). *)

Inductive ErrKind : Type := NonZeroExit | ParseError | Timeout.

Inductive BridgeResponse : Type :=
| Ok (payload : JValue)
| Err (kind : ErrKind) (message : string).

Fixpoint spec_collect (rt : Runtime) (timeout : Z) (out err : string)
    (proc : Trace) : BridgeResponse :=
  match proc with
  | [] => Err Timeout EmptyString
  | (dt, e) :: rest =>
      if (timeout <=? dt)%Z then Err Timeout EmptyString
      else match e with
           | StdoutData chunk => spec_collect rt timeout (out +:+ chunk) err rest
           | StderrData chunk => spec_collect rt timeout out (err +:+ chunk) rest
           | Close (Some 0) =>
               match JSON_parse rt out with
               | Some v => Ok v
               | None => Err ParseError out
               end
           | Close _ => Err NonZeroExit err
           end
  end.

Definition spec_invoke (rt : Runtime) (timeout : Z) (proc : Trace)
  : BridgeResponse :=
  spec_collect rt timeout EmptyString EmptyString proc.

(** A settled promise read as a [BridgeResponse]: a resolved promise is a
    success payload, a rejected one a failure with its message. *)
Definition answers (o : option (Z * Settle)) (b : BridgeResponse) : Prop :=
  match o, b with
  | Some (_, Resolved v), Ok p => v = p
  | Some (_, Rejected m), Err _ m' => m = m'
  | _, _ => False
  end.

(** ** Vocabulary of the statements *)

(** The promise of [callGarminDBService] and the state right after the
    spawn. *)
Definition garmin_promise (rt : Runtime) (action : string) (params : JValue)
    (proc : Trace) (s : State) : Run :=
  fst (callGarminDBService rt action params proc s).

Definition garmin_spawned (rt : Runtime) (action : string) (params : JValue)
    (proc : Trace) (s : State) : State :=
  snd (callGarminDBService rt action params proc s).

Section Outcomes.
Context (rt : Runtime) (action : string) (t0 : Z) (i0 : nat).

(** A run of [callGarminDBService] once every event has been delivered
  and the timer has fired. *)
Definition finish (r : Run) : Run :=
if timer_fired r then r else garmin_on_timeout rt action t0 i0 r.

(** What the promise of [callGarminDBService] holds, for each answer of
  the contract. *)
Definition resolved_fallback (dt : Z) (R : Run) : Prop :=
exists i, settled R =
          Some (dt, Resolved (getFallbackData rt i (t0 + dt) action)).

Definition garmin_post (b : BridgeResponse) (R : Run) : Prop :=
match b with
| Ok v => exists dt, settled R = Some (dt, Resolved v)
| Err NonZeroExit m =>
    (exists dt, resolved_fallback dt R) /\
    In ("GarminDB service failed: " +:+ m) (errors_logged R)
| Err ParseError _ =>
    (exists dt, resolved_fallback dt R) /\ In "Parse error:" (errors_logged R)
| Err Timeout _ => resolved_fallback 15000 R
end.

Definition agent_finish (r : Run) : Run :=
if timer_fired r then r else agent_on_timeout r.

(** What the promise of [callAgent] holds, for each answer of the
  contract. *)
Definition agent_post (b : BridgeResponse) (R : Run) : Prop :=
match b with
| Ok v => exists dt, settled R = Some (dt, Resolved v)
| Err NonZeroExit m =>
    exists dt, settled R = Some (dt, Rejected ("Agent process failed: " +:+ m))
| Err ParseError _ =>
    exists dt, settled R = Some (dt, Rejected "Failed to parse agent response")
| Err Timeout _ => settled R = Some (30000, Rejected "Agent request timeout")
end.

End Outcomes.

(** The state of the server when it starts at time [t]: an empty cache,
    nothing spawned yet. *)
Definition boot (t : Z) : State :=
  {| now := t; heap := []; garminCache := ∅; timers := []; spawned := [];
     console := []; draws := 0 |}.

(** The clock reads [t]; callbacks that are due have not run yet. *)
Definition clock (t : Z) (s : State) : State :=
  {| now := t; heap := heap s; garminCache := garminCache s;
     timers := timers s; spawned := spawned s; console := console s;
     draws := draws s |}.

Definition unknown_action : JValue := JObj [("error", JStr "Unknown action")].

(** A process delivers its events after it was spawned. *)
Definition causal (proc : Trace) : Prop := Forall (fun e => 0 <= fst e) proc.

Definition settled_after_spawn (r : Run) : Prop :=
  match settled r with
  | Some (dt, _) => 0 <= dt
  | None => True
  end.

(** The 30 minutes of [setTimeout(() => delete garminCache[cacheKey],
    1800000)]. *)
Definition TTL : Z := 1800000.

(** Every key in the cache has a pending deletion, due within the next
    30 minutes. *)
Definition evictable (s : State) : Prop :=
  forall k a, garminCache s !! k = Some a ->
              exists d, In (d, k) (timers s) /\ d <= now s + TTL.

(** *** Processes and requests of the examples *)

(** A process that writes to stderr and exits with code 1. *)
Definition crashing : Trace := [(40, StderrData "boom"); (50, Close (Some 1))].

(** A metrics process that prints a snapshot. *)
Definition healthy : Trace :=
  [ (100, StdoutData ("{" +:+ Node.dq "steps" +:+ ":8547}"));
    (120, Close (Some 0)) ].

(** A metrics process that reports a finished sync. *)
Definition synced : Trace :=
  [ (900, StdoutData ("{" +:+ Node.dq "success" +:+ ":true}"));
    (950, Close (Some 0)) ].

(** An agent process that answers. *)
Definition replying : Trace :=
  [ (2000, StdoutData ("{" +:+ Node.dq "response" +:+ ":" +:+
                       Node.dq "Rest today." +:+ "}"));
    (2100, Close (Some 0)) ].

Definition analyze_request : Request :=
  {| user_id := Some "demo-user";
     body := JObj [ ("request_type", JStr "daily_insights");
                    ("data", JObj [("steps", JNum 8547)]) ] |}.

Definition chat_request (history : JValue) : Request :=
  {| user_id := Some "u1";
     body := JObj [ ("message", JStr "How's my recovery?");
                    ("conversation_history", history) ] |}.

Definition one_turn : JValue :=
  JArr [ JObj [ ("text", JStr "I slept badly"); ("isUser", JBool true) ] ].

(** ** The remaining routes *)

(** What the routes below read from the host besides the [Runtime]:
    [process.env.NODE_ENV], and the message of the [TypeError] the engine
    throws when a property is read from [null] or [undefined]. *)
Record Host : Type := {
  NODE_ENV : option string;
  typeError_message : JValue -> string -> string
}.

Section MoreRoutes.
Context (rt : Runtime) (host : Host).

(** [app.get('/garmin/status', ...)]: [checkGarminDBStatus] catches
    whatever its bridge call could throw, so the handler's own [catch] has
    nothing to catch. *)
Definition status_route (proc : Trace) (s : State) : option (Response * State) :=
  match checkGarminDBStatus rt proc s with
  | None => None
  | Some (st, s1) => Some ({| status := 200; json := deref s1 st |}, s1)
  end.

Definition setup_instructions : JValue :=
  JArr [ JStr "1. Install GarminDB: pip install garmindb";
         JStr "2. Create data directory: mkdir ~/GarminDB";
         JStr "3. Copy your Garmin data or set up auto-import";
         JStr "4. Run initial import: garmindb_cli.py --all";
         JStr "5. Restart this server" ].

(** The body the [catch] of the setup route answers with. *)
Definition setup_failure (message : string) : JValue :=
  JObj [ ("connected", JBool false);
         ("error", JStr message);
         ("setup_instructions", JArr
            [ JStr "Install GarminDB first: pip install garmindb";
              JStr "Follow GarminDB documentation for setup" ]) ].

(** [app.get('/setup/garmindb-status', ...)]: both [res.json] calls
    answer 200. *)
Definition setup_status_route (proc : Trace) (s : State)
  : option (Response * State) :=
  match checkGarminDBStatus rt proc s with
  | None => None
  | Some (st, s1) =>
      match get_prop "connected" (deref s1 st) with
      | Some connected =>
          let s2 := if negb (truthy connected)
                    then set_heap (<[st :=
                           set_prop "setup_instructions" setup_instructions
                                    (deref s1 st)]> (heap s1)) s1
                    else s1 in
          Some ({| status := 200; json := deref s2 st |}, s2)
      | None =>
          Some ({| status := 200;
                   json := setup_failure
                             (typeError_message host (deref s1 st) "connected") |},
                s1)
      end
  end.

(** [process.env.NODE_ENV === 'production'] *)
Definition in_production : bool :=
  match NODE_ENV host with
  | Some env => String.eqb env "production"
  | None => false
  end.

(** [app.post('/dev/trigger-sync', ...)] *)
Definition dev_trigger_sync_route (req : Request) (proc : Trace) (s : State)
  : option (Response * State) :=
  if in_production
  then Some ({| status := 403;
                json := JObj [("error", JStr "Not available in production")] |}, s)
  else
    let userId := userId_of req in
    match syncGarminData rt userId proc s with
    | None => None
    | Some (result, s1) =>
        Some ({| status := 200;
                 json := JObj [ ("message", JStr "Sync triggered");
                                ("result", deref s1 result) ] |}, s1)
    end.

(** *** The server as a whole *)

(** An inbound request, with what the processes it spawns will do. *)
Inductive Inbound : Type :=
| GetLatestMetrics (req : Request) (proc : Trace)
| PostSync (req : Request) (proc : Trace)
| GetStatus (proc : Trace)
| GetWeeklySummary (req : Request) (proc : Trace)
| PostAnalyze (req : Request) (proc : Trace)
| PostChat (req : Request) (mproc aproc : Trace)
| GetSetupStatus (proc : Trace)
| PostTriggerSync (req : Request) (proc : Trace).

(** The route table: the handler that runs for a request that has come
    through [app.use(express.json())].  A request that middleware turns
    away (a body it cannot parse, or one over its size limit) reaches no
    handler and is not an [Inbound]. *)
Definition serve (r : Inbound) (s : State) : option (Response * State) :=
  match r with
  | GetLatestMetrics req proc => latest_metrics_route rt req proc s
  | PostSync req proc => sync_route rt req proc s
  | GetStatus proc => status_route proc s
  | GetWeeklySummary req proc => weekly_summary_route rt req proc s
  | PostAnalyze req proc => analyze_route rt req proc s
  | PostChat req mproc aproc => chat_route rt req mproc aproc s
  | GetSetupStatus proc => setup_status_route proc s
  | PostTriggerSync req proc => dev_trigger_sync_route req proc s
  end.

(** What happens to the server: time passes until [t], or a request is
    served. *)
Inductive Happening : Type :=
| Elapse (t : Z)
| Serve (r : Inbound).

Definition happen (h : Happening) (s : State) : option State :=
  match h with
  | Elapse t => Some (advance t s)
  | Serve r => snd <$> serve r s
  end.

Fixpoint history (hs : list Happening) (s : State) : option State :=
  match hs with
  | [] => Some s
  | h :: rest => s1 ← happen h s; history rest s1
  end.

(** The processes of a request deliver their events after the spawn. *)
Definition causal_inbound (r : Inbound) : Prop :=
  match r with
  | GetLatestMetrics _ proc | PostSync _ proc | GetStatus proc
  | GetWeeklySummary _ proc | PostAnalyze _ proc | GetSetupStatus proc
  | PostTriggerSync _ proc => causal proc
  | PostChat _ mproc aproc => causal mproc /\ causal aproc
  end.

(** Time does not run backwards, and processes are causal. *)
Fixpoint plausible (hs : list Happening) (s : State) : Prop :=
  match hs with
  | [] => True
  | h :: rest =>
      match h with
      | Elapse t => now s <= t
      | Serve r => causal_inbound r
      end /\
      match happen h s with
      | Some s1 => plausible rest s1
      | None => True
      end
  end.

End MoreRoutes.

(** [app.use(express.json())] in front of a route.  What the middleware
    makes of a request is the library's: [refusal req] is the response it
    answers itself with (400 for a body it cannot parse, 413 for one over
    its size limit), [None] when it hands the request on to the route.
    A request it refuses changes nothing on the server. *)
Definition express_json (refusal : Request -> option Response)
    (route : Request -> State -> option (Response * State))
    (req : Request) (s : State) : option (Response * State) :=
  match refusal req with
  | Some resp => Some (resp, s)
  | None => route req s
  end.

(** ** Vocabulary of the further statements *)

(** The time a route may take, in milliseconds: one GarminDB bridge
    call, one agent call, or both. *)
Definition time_limit (r : Inbound) : Z :=
  match r with
  | PostAnalyze _ _ => 30000
  | PostChat _ _ _ => 45000
  | _ => 15000
  end.

(** Every key in the cache is the key of some user on some date. *)
Definition keyed (rt : Runtime) (s : State) : Prop :=
  forall k a, garminCache s !! k = Some a ->
              exists userId t, k = cacheKey_of rt userId t.

(** Every address in the cache is the address of an object. *)
Definition allocated (s : State) : Prop :=
  forall k a, garminCache s !! k = Some a -> (a < length (heap s))%nat.

(** The three together. *)
Definition sound (rt : Runtime) (s : State) : Prop :=
  keyed rt s /\ allocated s /\ evictable s.

(** A promise is settled no later than [limit], and the timer has not
    fired while it is pending. *)
Definition settled_by (limit : Z) (r : Run) : Prop :=
  match settled r with
  | Some (dt, _) => dt <= limit
  | None => timer_fired r = false
  end.

(** What a process wrote to stdout and to stderr, in order. *)
Fixpoint stdout_of (proc : Trace) : string :=
  match proc with
  | [] => EmptyString
  | (_, StdoutData chunk) :: rest => chunk +:+ stdout_of rest
  | _ :: rest => stdout_of rest
  end.

Fixpoint stderr_of (proc : Trace) : string :=
  match proc with
  | [] => EmptyString
  | (_, StderrData chunk) :: rest => chunk +:+ stderr_of rest
  | _ :: rest => stderr_of rest
  end.

(** Output only, delivered before the time limit. *)
Definition output_before (limit : Z) (proc : Trace) : Prop :=
  Forall (fun e => fst e < limit /\
                   match snd e with Close _ => False | _ => True end) proc.

(** The only process a state was spawned with since [s]. *)
Definition spawned_once (s s' : State) (p : Spawn) : Prop :=
  spawned s' = (spawned s ++ [p])%list.

Definition garmin_spawn (rt : Runtime) (action : string) (params : JValue)
  : Spawn :=
  {| command := "python3"; script := pythonService rt;
     payload := JObj [ ("action", JStr action); ("params", params);
                       ("garmindb_path", JStr (garmindbPath rt)) ] |}.

Definition agent_spawn (requestType data message : JValue) : Spawn :=
  {| command := "python3"; script := "./agents/fitness_ai_single.py";
     payload := JObj [ ("request_type", requestType); ("data", data);
                       ("message", message) ] |}.

(** ** The mobile client

    The screens of the app, as far as they decide what the user sees of
    the server's answers.  A screen's state is the record of its
    [useState] cells; a handler is run to its end and returns the state
    its [set...] calls leave.  What the device provides is a parameter:
    the clock, [trim], what a message becomes as JSON. *)

Module Mobile.

(** What [await api....()] gives: the [data] of the response, or an
    error thrown, of which the screens only read [code]. *)
Inductive ApiResult : Type :=
| Responded (data : JValue)
| Failed (code : JValue).

(** axios settles a response by its status: 2xx resolves, any other
    status rejects with an error whose code is [bad].  The document the
    client reads is the one the server wrote. *)
Definition settle_response (bad : JValue) (r : Response) : ApiResult :=
  if (200 <=? status r)%Z && (status r <? 300)%Z
  then Responded (json r) else Failed bad.

(** *** [services/apiClient.js] *)

(** The request interceptor sets the [user-id] header of every request;
    [body] is what [express.json()] makes of the posted document. *)
Definition with_headers (body : JValue) : Request :=
  {| user_id := Some "demo-user"; body := body |}.

Module api.

Definition getLatestMetrics : Request := with_headers (JObj []).

Definition getDailyInsights (data : JValue) : Request :=
  with_headers (JObj [("request_type", JStr "daily_insights"); ("data", data)]).

Definition chatWithAgent (message : string) (conversationHistory : JValue)
  : Request :=
  with_headers (JObj [ ("message", JStr message);
                       ("conversation_history", conversationHistory) ]).

End api.

(** [timeout: 30000] *)
Definition timeout : Z := 30000.

(** What a call made when the server is in state [s] gives, the server
    answering [o]: once [timeout] has passed axios gives up with
    [ECONNABORTED], else it settles the response by its status.  The
    network adds no delay of its own. *)
Definition received (bad : JValue) (s : State) (o : option (Response * State))
  : ApiResult :=
  match o with
  | Some (r, s') =>
      if (timeout <=? now s' - now s)%Z then Failed (JStr "ECONNABORTED")
      else settle_response bad r
  | None => Failed (JStr "ECONNABORTED")
  end.

(** [code === name] *)
Definition is_code (code : JValue) (name : string) : bool :=
  match code with
  | JStr c => String.eqb c name
  | _ => false
  end.

(** [v?.k], and [v.k] where [v] is known to be neither [null] nor
    [undefined] *)
Definition optional (k : string) (v : JValue) : JValue :=
  default JUndefined (get_prop k v).

(** [messages.slice(-n)] *)
Definition slice_last {A : Type} (n : nat) (l : list A) : list A :=
  drop (length l - n) l.

(** *** [screens/Dashboard.js] *)

Module Dashboard.

Record State : Type := {
  metrics : JValue;
  insights : JValue;
  refreshing : bool;
  loading : bool;
  (** the [code] of the error kept by [setError], [None] for [null] *)
  error : option JValue;
  alerts : list (string * string)
}.

Definition initial : State :=
  {| metrics := JNull; insights := JArr []; refreshing := false;
     loading := true; error := None; alerts := [] |}.

(** The insight the dashboard shows when the insights call fails. *)
Definition fallback_insights : JValue :=
  JArr [ JObj
    [ ("title", JStr "🤖 AI Coach Status");
      ("content",
        JStr ("Your AI fitness coaches are getting ready! " +:+
              "Sync your data for personalized insights."));
      ("type", JStr "info");
      ("agent", JStr "system") ] ].

(** [loadDashboardData]: [latest] is what [api.getLatestMetrics()]
    gives, [daily] what the server gives for the insights request. *)
Definition loadDashboardData (latest : ApiResult) (daily : Request -> ApiResult)
    (st : State) : State :=
  match latest with
  | Failed code =>
      {| metrics := metrics st; insights := insights st;
         refreshing := false; loading := false; error := Some code;
         alerts := alerts st ++
           [ if is_code code "NETWORK_ERROR" || is_code code "ECONNREFUSED"
             then ("Connection Error",
                   "Unable to connect to the fitness server. " +:+
                   "Make sure the backend is running on localhost:3000")
             else ("Error", "Failed to load dashboard data") ] |}
  | Responded data =>
      {| metrics := data;
         insights :=
           match daily (api.getDailyInsights data) with
           | Responded d =>
               match get_prop "insights" d with
               | Some found => js_or found (JArr [])
               | None => fallback_insights
               end
           | Failed _ => fallback_insights
           end;
         refreshing := false; loading := false; error := None;
         alerts := alerts st |}
  end.

End Dashboard.

(** *** [screens/ChatAgent.js] *)

Module ChatAgent.

Record Message : Type := {
  id : Z;
  text : JValue;
  isUser : bool;
  agent : JValue;
  agentName : JValue;
  timestamp : Z;
  insights : JValue
}.

Record State : Type := {
  messages : list Message;
  inputText : string;
  isLoading : bool
}.

Definition userMessage (t : Z) (messageText : string) : Message :=
  {| id := t; text := JStr messageText; isUser := true; agent := JUndefined;
     agentName := JUndefined; timestamp := t; insights := JUndefined |}.

Definition agentMessage (t : Z) (data response : JValue) : Message :=
  {| id := t + 1; text := response; isUser := false;
     agent := js_or (optional "agent_type" data) (JStr "ai_coach");
     agentName := optional "agent_name" data;
     timestamp := t; insights := js_or (optional "insights" data) (JArr []) |}.

Definition errorResponse (t : Z) (code : JValue) : Message :=
  {| id := t + 1;
     text := JStr ("I'm having trouble connecting right now. " +:+
                   (if is_code code "NETWORK_ERROR" || is_code code "ECONNREFUSED"
                    then "Make sure the backend server is running on localhost:3000."
                    else "Please try again in a moment."));
     isUser := false; agent := JStr "system"; agentName := JUndefined;
     timestamp := t; insights := JUndefined |}.

(** [sendMessage(messageText = inputText)]: [t1] and [t2] are the clock
    when the message is sent and when the answer arrives, [encode] is
    what a message becomes as JSON, [chat] what the server gives for the
    chat request.  The history passed is taken from the [messages] the
    handler was created with, before the user's message is added. *)
Definition sendMessage (trim : string -> string) (encode : Message -> JValue)
    (t1 t2 : Z) (chat : Request -> ApiResult) (messageText : option string)
    (st : State) : State :=
  let messageText := default (inputText st) messageText in
  match trim messageText with
  | EmptyString => st
  | String _ _ =>
      let reply :=
        match chat (api.chatWithAgent messageText
                      (JArr (encode <$> slice_last 10 (messages st)))) with
        | Responded data =>
            match get_prop "response" data with
            | Some response => agentMessage t2 data response
            | None => errorResponse t2 JUndefined
            end
        | Failed code => errorResponse t2 code
        end in
      {| messages := (messages st ++ [userMessage t1 messageText]) ++ [reply];
         inputText := EmptyString; isLoading := false |}
  end.

End ChatAgent.

End Mobile.

(** ** Processes and histories of the further statements *)

(** A process that prints a snapshot in three pieces, with a warning on
    stderr in between. *)
Definition chunked : Trace :=
  [ (100, StdoutData "{"); (110, StderrData "warning");
    (120, StdoutData (Node.dq "steps")); (130, StdoutData ":8547}") ].


(** A morning of the server: a snapshot is fetched, a minute later the
    user syncs, ten minutes later the dashboard asks again. *)
Definition morning : list Happening :=
  [ Serve (GetLatestMetrics analyze_request healthy);
    Elapse (Node.new_year_2026 + 60000);
    Serve (PostSync analyze_request synced);
    Elapse (Node.new_year_2026 + 660000);
    Serve (GetLatestMetrics analyze_request healthy) ].

Definition localhost : Host :=
  {| NODE_ENV := None; typeError_message := fun _ _ => "TypeError" |}.

(** A JSON middleware that turns away a history of more than three
    messages. *)
Definition three_messages (req : Request) : option Response :=
  match get_prop "conversation_history" (body req) with
  | Some (JArr items) =>
      if (3 <? length items)%nat
      then Some {| status := 413; json := JUndefined |}
      else None
  | _ => None
  end.

(** The state ten minutes after the user's sync. *)
Definition after_sync : State :=
  default (boot 0)
    (history Node.runtime localhost (take 4 morning) (boot Node.new_year_2026)).

(** * Properties *)

(** ** Promises settle once *)

Section BridgeFacts.
Context (rt : Runtime) (action : string) (t0 : Z) (i0 : nat).

Lemma settled_settle dt o r :
  settled (settle dt o r) =
  match settled r with Some x => Some x | None => Some (dt, o) end.
Proof. unfold settle. destruct (settled r) eqn:E; simpl; auto. Qed.

Lemma settle_keeps dt o r x :
  settled r = Some x -> settle dt o r = r.
Proof. unfold settle. now intros ->. Qed.

Lemma errors_settle dt o r : errors_logged (settle dt o r) = errors_logged r.
Proof. unfold settle. now destruct (settled r). Qed.

Lemma killed_settle dt o r : killed (settle dt o r) = killed r.
Proof. unfold settle. now destruct (settled r). Qed.

Lemma fired_settle dt o r : timer_fired (settle dt o r) = timer_fired r.
Proof. unfold settle. now destruct (settled r). Qed.

Lemma garmin_on_event_keeps dt e r x :
  settled r = Some x -> settled (garmin_on_event rt action t0 i0 dt e r) = Some x.
Proof.
  intros H. destruct e as [c | c | code]; simpl; auto.
  unfold garmin_on_close, resolve_fallback.
  destruct code as [[| p | p] |]; try destruct (JSON_parse rt (result r));
    rewrite settled_settle; simpl; now rewrite H.
Qed.

Lemma garmin_on_timeout_keeps r x :
  settled r = Some x -> settled (garmin_on_timeout rt action t0 i0 r) = Some x.
Proof.
  intros H. unfold garmin_on_timeout, resolve_fallback.
  rewrite settled_settle. simpl. now rewrite H.
Qed.

Lemma garmin_on_event_fired dt e r :
  timer_fired (garmin_on_event rt action t0 i0 dt e r) = timer_fired r.
Proof.
  destruct e as [c | c | code]; simpl; auto.
  unfold garmin_on_close, resolve_fallback.
  destruct code as [[| p | p] |]; try destruct (JSON_parse rt (result r));
    now rewrite fired_settle.
Qed.

Lemma garmin_on_event_killed dt e r :
  killed (garmin_on_event rt action t0 i0 dt e r) = killed r.
Proof.
  destruct e as [c | c | code]; simpl; auto.
  unfold garmin_on_close, resolve_fallback.
  destruct code as [[| p | p] |]; try destruct (JSON_parse rt (result r));
    now rewrite killed_settle.
Qed.

Lemma garmin_on_event_logged dt e r l :
  In l (errors_logged r) ->
  In l (errors_logged (garmin_on_event rt action t0 i0 dt e r)).
Proof.
  intros H. destruct e as [c | c | code]; simpl; auto.
  unfold garmin_on_close, resolve_fallback.
  destruct code as [[| p | p] |]; try destruct (JSON_parse rt (result r));
    rewrite errors_settle; simpl; auto using in_or_app.
Qed.

Lemma garmin_on_timeout_logged r l :
  In l (errors_logged r) ->
  In l (errors_logged (garmin_on_timeout rt action t0 i0 r)).
Proof.
  intros H. unfold garmin_on_timeout, resolve_fallback.
  now rewrite errors_settle.
Qed.

Lemma garmin_on_timeout_fired r :
  timer_fired (garmin_on_timeout rt action t0 i0 r) = true /\
  killed (garmin_on_timeout rt action t0 i0 r) = true.
Proof.
  unfold garmin_on_timeout, resolve_fallback.
  now rewrite fired_settle, killed_settle.
Qed.

Abbreviation step := (deliver 15000 (garmin_on_timeout rt action t0 i0)
                          (garmin_on_event rt action t0 i0)).

Lemma deliver_keeps r e x : settled r = Some x -> settled (step r e) = Some x.
Proof.
  intros H. unfold deliver. apply garmin_on_event_keeps.
  destruct (timer_fired r); auto.
  destruct (15000 <=? fst e)%Z; auto using garmin_on_timeout_keeps.
Qed.

Lemma deliver_logged r e l :
  In l (errors_logged r) -> In l (errors_logged (step r e)).
Proof.
  intros H. unfold deliver. apply garmin_on_event_logged.
  destruct (timer_fired r); auto.
  destruct (15000 <=? fst e)%Z; auto using garmin_on_timeout_logged.
Qed.

Lemma deliver_killed r e : killed r = true -> killed (step r e) = true.
Proof.
  intros H. unfold deliver. rewrite garmin_on_event_killed.
  destruct (timer_fired r); auto.
  destruct (15000 <=? fst e)%Z; auto.
  apply garmin_on_timeout_fired.
Qed.

Lemma foldl_keeps proc r x :
  settled r = Some x -> settled (foldl step r proc) = Some x.
Proof.
  revert r. induction proc as [| e proc IH]; intros r H; simpl; auto.
  apply IH. now apply deliver_keeps.
Qed.

Lemma foldl_logged proc r l :
  In l (errors_logged r) -> In l (errors_logged (foldl step r proc)).
Proof.
  revert r. induction proc as [| e proc IH]; intros r H; simpl; auto.
  apply IH. now apply deliver_logged.
Qed.

Lemma foldl_killed proc r :
  killed r = true -> killed (foldl step r proc) = true.
Proof.
  revert r. induction proc as [| e proc IH]; intros r H; simpl; auto.
  apply IH. now apply deliver_killed.
Qed.

Lemma finish_keeps r x : settled r = Some x -> settled (finish rt action t0 i0 r) = Some x.
Proof.
  unfold finish. destruct (timer_fired r); auto using garmin_on_timeout_keeps.
Qed.

Lemma finish_logged r l :
  In l (errors_logged r) -> In l (errors_logged (finish rt action t0 i0 r)).
Proof.
  unfold finish. destruct (timer_fired r); auto using garmin_on_timeout_logged.
Qed.

Lemma garmin_run_unfold proc :
  garmin_run rt action t0 i0 proc = finish rt action t0 i0 (foldl step fresh_run proc).
Proof. reflexivity. Qed.

(** [kill()] and the firing of the timer happen together. *)
Lemma deliver_fired_killed r e :
  timer_fired r = killed r -> timer_fired (step r e) = killed (step r e).
Proof.
  intros H. unfold deliver.
  rewrite garmin_on_event_fired, garmin_on_event_killed.
  destruct (timer_fired r) eqn:F; [now rewrite F |].
  destruct (15000 <=? fst e)%Z; [| now rewrite F].
  destruct (garmin_on_timeout_fired r) as [E1 E2]. now rewrite E1, E2.
Qed.

Lemma foldl_fired_killed proc r :
  timer_fired r = killed r ->
  timer_fired (foldl step r proc) = killed (foldl step r proc).
Proof.
  revert r. induction proc as [| e proc IH]; intros r H; simpl; auto.
  apply IH. now apply deliver_fired_killed.
Qed.

Lemma garmin_run_killed proc : killed (garmin_run rt action t0 i0 proc) = true.
Proof.
  rewrite garmin_run_unfold. unfold finish.
  pose proof (foldl_fired_killed proc fresh_run eq_refl) as H.
  destruct (timer_fired (foldl step fresh_run proc)); auto.
  apply garmin_on_timeout_fired.
Qed.

Lemma garmin_post_keeps b r proc :
  (exists x, settled r = Some x) ->
  garmin_post rt action t0 b r -> garmin_post rt action t0 b (finish rt action t0 i0 (foldl step r proc)).
Proof.
  intros [x Hx] H.
  assert (K : forall y, settled r = Some y ->
                        settled (finish rt action t0 i0 (foldl step r proc)) = Some y)
    by (intros y Hy; now apply finish_keeps, foldl_keeps).
  assert (L : forall l, In l (errors_logged r) ->
                        In l (errors_logged (finish rt action t0 i0 (foldl step r proc))))
    by (intros l Hl; now apply finish_logged, foldl_logged).
  destruct b as [v | [] m]; simpl in *; unfold resolved_fallback in *.
  - destruct H as [dt H]. eauto.
  - destruct H as [[dt [i H]] Hl]. eauto 6.
  - destruct H as [[dt [i H]] Hl]. eauto 6.
  - destruct H as [i H]. eauto.
Qed.

Lemma garmin_collect proc : forall r,
  settled r = None -> timer_fired r = false ->
  garmin_post rt action t0 (spec_collect rt 15000 (result r) (error r) proc)
              (finish rt action t0 i0 (foldl step r proc)).
Proof.
  induction proc as [| [dt e] proc IH]; intros r Hs Hf.
  - simpl. unfold finish. rewrite Hf. exists (i0 + drawn (kill_run r))%nat.
    unfold garmin_on_timeout, resolve_fallback.
    rewrite settled_settle. simpl. now rewrite Hs.
  - cbn [foldl spec_collect]. unfold deliver at 2. rewrite Hf. cbn [fst snd].
    destruct (15000 <=? dt)%Z.
    + apply garmin_post_keeps.
      * eexists. apply garmin_on_event_keeps.
        unfold garmin_on_timeout, resolve_fallback.
        rewrite settled_settle. simpl. now rewrite Hs.
      * simpl. eexists. apply garmin_on_event_keeps.
        unfold garmin_on_timeout, resolve_fallback.
        rewrite settled_settle. simpl. rewrite Hs. reflexivity.
    + destruct e as [c | c | code].
      * apply (IH (append_result c r)); assumption.
      * apply (IH (append_error c r)); assumption.
      * cbn [garmin_on_event]. unfold garmin_on_close.
        assert (F : forall line,
                  let r' := resolve_fallback rt action t0 i0 dt
                              (console_error_run line r) in
                  (exists x, settled r' = Some x) /\
                  (exists d, resolved_fallback rt action t0 d r') /\
                  In line (errors_logged r')).
        { intros line r'. subst r'. unfold resolve_fallback, resolved_fallback.
          rewrite settled_settle, errors_settle. simpl. rewrite Hs.
          repeat split; eauto. apply in_or_app. right. now left. }
        destruct code as [[| p | p] |].
        -- destruct (JSON_parse rt (result r)) as [v |] eqn:P.
           ++ apply garmin_post_keeps.
              ** eexists. rewrite settled_settle, Hs. reflexivity.
              ** simpl. eexists. rewrite settled_settle, Hs. reflexivity.
           ++ destruct (F "Parse error:") as (S1 & S2 & S3).
              apply garmin_post_keeps; [assumption | now split].
        -- destruct (F ("GarminDB service failed: " +:+ error r)) as (S1 & S2 & S3).
           apply garmin_post_keeps; [assumption | now split].
        -- destruct (F ("GarminDB service failed: " +:+ error r)) as (S1 & S2 & S3).
           apply garmin_post_keeps; [assumption | now split].
        -- destruct (F ("GarminDB service failed: " +:+ error r)) as (S1 & S2 & S3).
           apply garmin_post_keeps; [assumption | now split].
Qed.

Lemma garmin_run_post proc :
  garmin_post rt action t0 (spec_invoke rt 15000 proc) (garmin_run rt action t0 i0 proc).
Proof. rewrite garmin_run_unfold. now apply (garmin_collect proc fresh_run). Qed.

Lemma garmin_run_resolves proc :
  exists dt v, settled (garmin_run rt action t0 i0 proc) = Some (dt, Resolved v).
Proof.
  pose proof (garmin_run_post proc) as H.
  destruct (spec_invoke rt 15000 proc) as [v | [] m]; simpl in H;
    unfold resolved_fallback in H.
  - destruct H as [dt H]. eauto.
  - destruct H as [[dt [i H]] _]. eauto.
  - destruct H as [[dt [i H]] _]. eauto.
  - destruct H as [i H]. eauto.
Qed.

End BridgeFacts.

(** ** Awaiting a bridge call *)

Section AwaitFacts.
Context (rt : Runtime).

Lemma await_resolved r s dt v :
  settled r = Some (dt, Resolved v) ->
  await r s = Some (Value (length (heap s)),
                    set_heap (heap s ++ [v]) (resumed r dt s)).
Proof. unfold await. now intros ->. Qed.

Lemma await_rejected r s dt m :
  settled r = Some (dt, Rejected m) ->
  await r s = Some (Thrown m, resumed r dt s).
Proof. unfold await. now intros ->. Qed.

Lemma garmin_promise_resolves action params proc s :
  exists dt v,
    settled (garmin_promise rt action params proc s) = Some (dt, Resolved v).
Proof. apply garmin_run_resolves. Qed.

Lemma await_garmin action params proc s :
  exists dt v,
    settled (garmin_promise rt action params proc s) = Some (dt, Resolved v) /\
    await (garmin_promise rt action params proc s)
          (garmin_spawned rt action params proc s) =
    Some (Value (length (heap s)),
          set_heap (heap s ++ [v])
            (resumed (garmin_promise rt action params proc s) dt
                     (garmin_spawned rt action params proc s))).
Proof.
  destruct (garmin_promise_resolves action params proc s) as (dt & v & H).
  exists dt, v. split; [exact H |]. now rewrite (await_resolved _ _ _ _ H).
Qed.

End AwaitFacts.

(** ** C9: the fallback generator stays within its bounds *)

(** A product of at most 53 bits is a double. *)
Lemma round_to_double_small n : Z.log2 n <= 52 -> round_to_double n = n.
Proof.
  intros H. unfold round_to_double.
  destruct (Z.leb_spec (Z.log2 n - 52) 0); [reflexivity | lia].
Qed.

(** Rounding moves a longer product up by at most half a unit in the
    last place. *)
Lemma round_to_double_near n :
  0 <= n -> 52 < Z.log2 n ->
  0 <= round_to_double n /\
  round_to_double n - n <= 2 ^ (Z.log2 n - 53).
Proof.
  intros Hn H. unfold round_to_double.
  destruct (Z.leb_spec (Z.log2 n - 52) 0) as [L | L]; [lia |].
  set (shift := Z.log2 n - 52) in *.
  replace (Z.log2 n - 53) with (shift - 1) by (unfold shift; lia).
  assert (P : 2 ^ shift = 2 * 2 ^ (shift - 1)).
  { replace shift with (Z.succ (shift - 1)) at 1 by lia.
    apply Z.pow_succ_r. lia. }
  assert (Hh : 0 < 2 ^ (shift - 1)) by (apply Z.pow_pos_nonneg; lia).
  pose proof (Z.div_mod n (2 ^ shift) ltac:(lia)) as D.
  pose proof (Z.mod_pos_bound n (2 ^ shift) ltac:(lia)) as M.
  assert (Q : 0 <= n / 2 ^ shift) by (apply Z.div_pos; lia).
  cbv zeta.
  destruct ((n mod 2 ^ shift <? 2 ^ (shift - 1))%Z
            || ((n mod 2 ^ shift =? 2 ^ (shift - 1))%Z && Z.even (n / 2 ^ shift)))
    eqn:C.
  - nia.
  - apply orb_false_iff in C as [C _]. apply Z.ltb_ge in C. nia.
Qed.

(** The rounded product can exceed the exact one and reach the next
    integer, but not [k]: the exact product is at least [k / 2^53] below
    [k], and were the rounded one to reach [k], half a unit in the last
    place would be at least [k / 2^53], which makes the product at least
    [k]. *)
Lemma floor_scaled_range m k :
  unit_interval m -> 0 < k -> 0 <= floor_scaled m k <= k - 1.
Proof.
  unfold unit_interval, floor_scaled. intros [Hlo Hhi] Hk.
  assert (Hn : 0 <= m * k) by nia.
  assert (Hu : m * k <= k * 2 ^ 53 - k) by nia.
  assert (B : 0 <= round_to_double (m * k) < k * 2 ^ 53).
  { destruct (Z_le_gt_dec (Z.log2 (m * k)) 52) as [S | S].
    - rewrite round_to_double_small by exact S. lia.
    - destruct (round_to_double_near (m * k) Hn ltac:(lia)) as [Z N].
      split; [exact Z |].
      destruct (Z_lt_ge_dec (round_to_double (m * k)) (k * 2 ^ 53)) as [? | G];
        [assumption | exfalso].
      assert (Hp : 0 < m * k).
      { destruct (Z.eq_dec (m * k) 0) as [E |]; [| lia].
        rewrite E in S. simpl in S. lia. }
      pose proof (Z.log2_spec (m * k) Hp) as [Lo _].
      assert (E : 2 ^ Z.log2 (m * k) = 2 ^ (Z.log2 (m * k) - 53) * 2 ^ 53).
      { rewrite <- Z.pow_add_r by lia. f_equal. lia. }
      assert (0 < 2 ^ (Z.log2 (m * k) - 53)) by (apply Z.pow_pos_nonneg; lia).
      nia. }
  split.
  - apply Z.div_pos; lia.
  - assert (round_to_double (m * k) / 2 ^ 53 < k); [| lia].
    apply Z.div_lt_upper_bound; lia.
Qed.

(** The rounding is not idle: this draw times 5000 is 48 / 2^53 short of
    4869 and rounds to it, where the exact product floors to 4868; and
    the largest draw still gives 4999. *)
Lemma floor_scaled_rounds :
  floor_scaled 8771210634266778 5000 = 4869 /\
  (8771210634266778 * 5000) / 2 ^ 53 = 4868 /\
  floor_scaled (2 ^ 53 - 1) 5000 = 4999.
Proof. repeat split; vm_compute; reflexivity. Qed.

(** C9.  Whatever [Math.random] returns, the snapshot
    [getFallbackData('get_latest_metrics')] builds has its steps in
    5,000..10,000, its sleep score in 70..100, its stress level in 20..60,
    its body battery in 60..100 and its resting heart rate in 55..70; its
    [dataSource] is ['fallback'] and its recovery status and advice are
    the fixed demo-mode texts. *)
Theorem fallback_snapshot_within_bounds (rt : Runtime) (i : nat) (t : Z) :
  (forall j, unit_interval (Math_random rt j)) ->
  let snapshot := getFallbackData rt i t "get_latest_metrics" in
  field_in "steps" 5000 10000 snapshot /\
  field_in "sleepScore" 70 100 snapshot /\
  field_in "stressLevel" 20 60 snapshot /\
  field_in "bodyBattery" 60 100 snapshot /\
  field_in "restingHeartRate" 55 70 snapshot /\
  get_prop "dataSource" snapshot = Some (JStr "fallback") /\
  get_prop "recoveryStatus" snapshot = Some (JStr "Demo Mode - Good Recovery") /\
  get_prop "recoveryAdvice" snapshot =
    Some (JStr "This is demo data. Connect your Garmin device for real insights.").
Proof.
  intros Hr snapshot. subst snapshot.
  assert (B : forall j k, 0 < k -> 0 <= floor_scaled (Math_random rt j) k <= k - 1)
    by (intros j k Hk; apply floor_scaled_range; auto).
  unfold field_in.
  repeat split; try reflexivity;
    (eexists; split; [reflexivity |]).
  - pose proof (B i 5000 eq_refl). lia.
  - pose proof (B (i + 2)%nat 30 eq_refl). lia.
  - pose proof (B (i + 3)%nat 40 eq_refl). lia.
  - pose proof (B (i + 4)%nat 40 eq_refl). lia.
  - pose proof (B (i + 5)%nat 15 eq_refl). lia.
Qed.

Lemma node_random_unit j : unit_interval (Node.random j).
Proof. unfold unit_interval, Node.random. apply Z.mod_pos_bound. reflexivity. Qed.

Lemma fallback_snapshot_within_bounds_witness :
  let snapshot := getFallbackData Node.runtime 0 Node.new_year_2026
                    "get_latest_metrics" in
  field_in "steps" 5000 10000 snapshot /\
  field_in "sleepScore" 70 100 snapshot /\
  field_in "stressLevel" 20 60 snapshot /\
  field_in "bodyBattery" 60 100 snapshot /\
  field_in "restingHeartRate" 55 70 snapshot /\
  get_prop "dataSource" snapshot = Some (JStr "fallback") /\
  get_prop "recoveryStatus" snapshot = Some (JStr "Demo Mode - Good Recovery") /\
  get_prop "recoveryAdvice" snapshot =
    Some (JStr "This is demo data. Connect your Garmin device for real insights.").
Proof.
  apply (fallback_snapshot_within_bounds Node.runtime 0 Node.new_year_2026).
  exact node_random_unit.
Defined.

(** ** C10: the GarminDB bridge never rejects *)

Lemma garmin_failure_fallback (rt : Runtime) action params proc s k m :
  spec_invoke rt 15000 proc = Err k m ->
  exists dt i,
    settled (garmin_promise rt action params proc s) =
    Some (dt, Resolved (getFallbackData rt i (now s + dt) action)) /\
    (k = Timeout -> dt = 15000).
Proof.
  intros H. pose proof (garmin_run_post rt action (now s) (draws s) proc) as P.
  rewrite H in P. unfold garmin_promise, callGarminDBService; cbn [fst].
  destruct k; simpl in P; unfold resolved_fallback in P.
  - destruct P as [[dt [i P]] _]. exists dt, i. split; [exact P | discriminate].
  - destruct P as [[dt [i P]] _]. exists dt, i. split; [exact P | discriminate].
  - destruct P as [i P]. exists 15000, i. split; [exact P | reflexivity].
Qed.

(** C10.  The promise of [callGarminDBService] always resolves and never
    rejects: whatever the process does the promise holds a value; when the
    process fails (non-zero exit, unparsable stdout, timeout) that value
    is [getFallbackData(action)].  Hence every caller continues in its
    [try] block, never in its [catch]; and for an action without an entry
    in the fallback table, such as [check_status], a failure resolves to
    [{error: 'Unknown action'}]. *)
Theorem garmin_bridge_never_rejects (rt : Runtime) (proc : Trace) (s : State) :
  (forall action params, exists dt v,
      settled (garmin_promise rt action params proc s) = Some (dt, Resolved v)) /\
  (forall action params k m,
      spec_invoke rt 15000 proc = Err k m ->
      exists dt i,
        settled (garmin_promise rt action params proc s) =
        Some (dt, Resolved (getFallbackData rt i (now s + dt) action))) /\
  (forall userId,
      cache_hit (cacheKey_of rt userId (now s)) s = None ->
      exists metrics s2,
        await (garmin_promise rt "get_latest_metrics" (user_params userId) proc s)
              (garmin_spawned rt "get_latest_metrics" (user_params userId) proc s)
        = Some (Value metrics, s2) /\
        getLatestMetrics rt userId proc s =
        Some (cache_metrics (cacheKey_of rt userId (now s)) metrics s2)) /\
  (forall userId, exists result s2,
      await (garmin_promise rt "sync_data" (user_params userId) proc s)
            (garmin_spawned rt "sync_data" (user_params userId) proc s)
      = Some (Value result, s2) /\
      syncGarminData rt userId proc s = Some (result, clear_cache userId s2)) /\
  (forall userId, exists summary s2,
      await (garmin_promise rt "get_weekly_summary" (user_params userId) proc s)
            (garmin_spawned rt "get_weekly_summary" (user_params userId) proc s)
      = Some (Value summary, s2) /\
      getWeeklySummary rt userId proc s = Some (summary, s2)) /\
  (exists result s2,
      await (garmin_promise rt "check_status" (JObj []) proc s)
            (garmin_spawned rt "check_status" (JObj []) proc s)
      = Some (Value result, s2) /\
      checkGarminDBStatus rt proc s = Some (result, s2)) /\
  (forall action i t,
      obj_get action (fallbackData rt i t) = JUndefined ->
      getFallbackData rt i t action = unknown_action) /\
  (forall k m,
      spec_invoke rt 15000 proc = Err k m ->
      exists dt,
        settled (garmin_promise rt "check_status" (JObj []) proc s) =
        Some (dt, Resolved unknown_action)).
Proof.
  repeat apply conj.
  - intros action params. apply garmin_promise_resolves.
  - intros action params k m H.
    destruct (garmin_failure_fallback rt action params proc s k m H)
      as (dt & i & E & _). eauto.
  - intros userId Hmiss.
    destruct (await_garmin rt "get_latest_metrics" (user_params userId) proc s)
      as (dt & v & _ & A).
    do 2 eexists. split; [exact A |].
    unfold getLatestMetrics. rewrite Hmiss. revert A.
    unfold garmin_promise, garmin_spawned, callGarminDBService.
    cbv beta iota zeta. cbn [fst snd]. now intros ->.
  - intros userId.
    destruct (await_garmin rt "sync_data" (user_params userId) proc s)
      as (dt & v & _ & A).
    do 2 eexists. split; [exact A |].
    unfold syncGarminData. revert A.
    unfold garmin_promise, garmin_spawned, callGarminDBService.
    cbv beta iota zeta. cbn [fst snd]. now intros ->.
  - intros userId.
    destruct (await_garmin rt "get_weekly_summary" (user_params userId) proc s)
      as (dt & v & _ & A).
    do 2 eexists. split; [exact A |].
    unfold getWeeklySummary. revert A.
    unfold garmin_promise, garmin_spawned, callGarminDBService.
    cbv beta iota zeta. cbn [fst snd]. now intros ->.
  - destruct (await_garmin rt "check_status" (JObj []) proc s)
      as (dt & v & _ & A).
    do 2 eexists. split; [exact A |].
    unfold checkGarminDBStatus. revert A.
    unfold garmin_promise, garmin_spawned, callGarminDBService.
    cbv beta iota zeta. cbn [fst snd]. now intros ->.
  - intros action i t H. unfold getFallbackData. now rewrite H.
  - intros k m H.
    destruct (garmin_failure_fallback rt "check_status" (JObj []) proc s k m H)
      as (dt & i & E & _). exists dt. exact E.
Qed.

Lemma garmin_bridge_never_rejects_witness :
  exists dt,
    settled (garmin_promise Node.runtime "check_status" (JObj []) crashing
               (boot Node.new_year_2026)) =
    Some (dt, Resolved unknown_action).
Proof.
  refine (proj2 (proj2 (proj2 (proj2 (proj2 (proj2 (proj2
    (garmin_bridge_never_rejects Node.runtime crashing
       (boot Node.new_year_2026)))))))) NonZeroExit "boom" _).
  reflexivity.
Defined.

(** ** C1: failures of the GarminDB bridge are not typed errors *)

(** C1 as stated fails.  A process that exits with code 1 after writing
    [boom] to stderr is, for the contract, [Err(NonZeroExit, "boom")];
    the promise of [callGarminDBService] is resolved with the fallback
    entry of the action, an ordinary payload. *)
Lemma nonzero_exit_resolves_with_payload :
  let p := garmin_promise Node.runtime "sync_data" (user_params "u1") crashing
             (boot Node.new_year_2026) in
  spec_invoke Node.runtime 15000 crashing = Err NonZeroExit "boom" /\
  settled p =
    Some (50, Resolved (JObj
      [ ("success", JBool false);
        ("message", JStr "GarminDB not available - using demo data");
        ("lastSync", JStr "2026-01-01T00:00:00.050Z") ])) /\
  ~ answers (settled p) (spec_invoke Node.runtime 15000 crashing).
Proof.
  repeat apply conj.
  - reflexivity.
  - vm_compute. reflexivity.
  - vm_compute. tauto.
Qed.

(** C1, amended.  For [callGarminDBService], each failure mode (a
    non-zero exit, whose stderr is only written to the console; stdout
    that does not parse; the 15 s timeout, whose callback kills the
    process) resolves the promise with [getFallbackData(action)], an
    ordinary payload: it is never a typed error and never a rejection. *)
Theorem garmin_failure_resolves_fallback
    (rt : Runtime) action params proc s k m :
  spec_invoke rt 15000 proc = Err k m ->
  let p := garmin_promise rt action params proc s in
  (exists dt i,
      settled p = Some (dt, Resolved (getFallbackData rt i (now s + dt) action)) /\
      (k = Timeout -> dt = 15000)) /\
  killed p = true /\
  match k with
  | NonZeroExit => In ("GarminDB service failed: " +:+ m) (errors_logged p)
  | ParseError => In "Parse error:" (errors_logged p)
  | Timeout => True
  end /\
  ~ answers (settled p) (Err k m).
Proof.
  intros H p. subst p.
  destruct (garmin_failure_fallback rt action params proc s k m H)
    as (dt & i & E & T).
  repeat apply conj.
  - eauto.
  - apply garmin_run_killed.
  - pose proof (garmin_run_post rt action (now s) (draws s) proc) as P.
    rewrite H in P. destruct k; simpl in P; [apply P | apply P | exact I].
  - rewrite E. simpl. tauto.
Qed.

Lemma garmin_failure_resolves_fallback_witness :
  let p := garmin_promise Node.runtime "sync_data" (user_params "u1") crashing
             (boot Node.new_year_2026) in
  (exists dt i,
      settled p = Some (dt, Resolved (getFallbackData Node.runtime i
                         (now (boot Node.new_year_2026) + dt) "sync_data")) /\
      (NonZeroExit = Timeout -> dt = 15000)) /\
  killed p = true /\
  In ("GarminDB service failed: " +:+ "boom") (errors_logged p) /\
  ~ answers (settled p) (Err NonZeroExit "boom").
Proof.
  apply (garmin_failure_resolves_fallback Node.runtime "sync_data"
           (user_params "u1") crashing (boot Node.new_year_2026)
           NonZeroExit "boom").
  reflexivity.
Defined.

(** ** The cache: eviction callbacks and invalidation *)

Section CacheFacts.
Implicit Types (c : gmap string nat) (k key userId : string).

Lemma expire_cons c p fired :
  expire c (p :: fired) = expire (delete (snd p) c) fired.
Proof. reflexivity. Qed.

Lemma expire_lookup_fired fired : forall c k,
  k ∈ map snd fired -> expire c fired !! k = None.
Proof.
  induction fired as [| p fired IH]; intros c k Hk.
  - inversion Hk.
  - rewrite expire_cons. destruct (decide (k ∈ map snd fired)) as [Hin | Hout].
    + now apply IH.
    + simpl in Hk. apply elem_of_cons in Hk as [-> | Hk]; [| contradiction].
      clear IH. revert c. induction fired as [| q fired IH]; intros c.
      * simpl. apply lookup_delete_eq.
      * rewrite expire_cons. simpl in Hout.
        apply not_elem_of_cons in Hout as [Hne Hout].
        rewrite delete_delete. now apply IH.
Qed.

Lemma expire_lookup_other fired : forall c k,
  k ∉ map snd fired -> expire c fired !! k = c !! k.
Proof.
  induction fired as [| p fired IH]; intros c k Hk; [reflexivity |].
  rewrite expire_cons. simpl in Hk. apply not_elem_of_cons in Hk as [Hne Hk].
  rewrite IH by assumption. now apply lookup_delete_ne.
Qed.

Lemma expire_lookup_Some fired c k a :
  expire c fired !! k = Some a -> c !! k = Some a /\ k ∉ map snd fired.
Proof.
  intros H. destruct (decide (k ∈ map snd fired)) as [Hin | Hout].
  - rewrite expire_lookup_fired in H by assumption. discriminate.
  - rewrite expire_lookup_other in H by assumption. now split.
Qed.

Lemma clear_keys_cons userId key keys c :
  clear_keys userId (key :: keys) c =
  clear_keys userId keys (if includes userId key then delete key c else c).
Proof. reflexivity. Qed.

Lemma clear_keys_sub userId keys : forall c k a,
  clear_keys userId keys c !! k = Some a -> c !! k = Some a.
Proof.
  induction keys as [| key keys IH]; intros c k a H; [exact H |].
  rewrite clear_keys_cons in H. apply IH in H.
  destruct (includes userId key); [| exact H].
  apply lookup_delete_Some in H. tauto.
Qed.

Lemma clear_keys_other userId keys : forall c k,
  includes userId k = false -> clear_keys userId keys c !! k = c !! k.
Proof.
  induction keys as [| key keys IH]; intros c k Hk; [reflexivity |].
  rewrite clear_keys_cons, IH by assumption.
  destruct (includes userId key) eqn:E; [| reflexivity].
  apply lookup_delete_ne. intros ->. congruence.
Qed.

Lemma clear_keys_matching userId keys : forall c k,
  includes userId k = true -> k ∈ keys -> clear_keys userId keys c !! k = None.
Proof.
  induction keys as [| key keys IH]; intros c k Hk Hin; [inversion Hin |].
  rewrite clear_keys_cons.
  destruct (decide (k ∈ keys)) as [Hin' | Hout]; [now apply IH |].
  apply elem_of_cons in Hin as [-> | Hin]; [| contradiction].
  rewrite Hk.
  destruct (clear_keys userId keys (delete key c) !! key) as [a |] eqn:E;
    [| reflexivity].
  apply clear_keys_sub in E. rewrite lookup_delete_eq in E. discriminate.
Qed.

(** What invalidation leaves in the cache: exactly the entries whose
    key does not contain [userId] as a substring. *)
Lemma clear_cache_lookup userId (s : State) k :
  garminCache (clear_cache userId s) !! k =
  if includes userId k then None else garminCache s !! k.
Proof.
  unfold clear_cache. simpl.
  destruct (includes userId k) eqn:E; [| now apply clear_keys_other].
  destruct (garminCache s !! k) as [a |] eqn:L.
  - apply clear_keys_matching; [assumption |].
    apply list_elem_of_fmap. exists (k, a). split; [reflexivity |].
    now apply elem_of_map_to_list.
  - destruct (clear_keys _ _ _ !! k) as [b |] eqn:C; [| reflexivity].
    apply clear_keys_sub in C. congruence.
Qed.

Lemma append_nil (b : string) : EmptyString +:+ b = b.
Proof. reflexivity. Qed.

Lemma append_cons ch (a b : string) : String ch a +:+ b = String ch (a +:+ b).
Proof. reflexivity. Qed.

Lemma prefix_app (a b : string) : String.prefix a (a +:+ b) = true.
Proof.
  induction a as [| ch a IH].
  - rewrite append_nil. now destruct b.
  - rewrite append_cons. simpl.
    destruct (Ascii.ascii_dec ch ch); [exact IH | contradiction].
Qed.

Lemma includes_app (n a b : string) :
  includes n b = true -> includes n (a +:+ b) = true.
Proof.
  intros H. induction a as [| ch a IH].
  - now rewrite append_nil.
  - rewrite append_cons. simpl. rewrite IH. apply orb_true_r.
Qed.

Lemma includes_unfold (n h : string) :
  includes n h =
  String.prefix n h ||
  match h with EmptyString => false | String _ rest => includes n rest end.
Proof. now destruct h. Qed.

Lemma includes_prefix (n b : string) : includes n (n +:+ b) = true.
Proof. now rewrite includes_unfold, prefix_app. Qed.

(** The key of a user's snapshot contains the user's id. *)
Lemma cacheKey_includes (rt : Runtime) userId t :
  includes userId (cacheKey_of rt userId t) = true.
Proof. unfold cacheKey_of. apply includes_app, includes_prefix. Qed.

End CacheFacts.

(** ** What the service methods return *)

Section ServiceFacts.
Context (rt : Runtime).

(** [getLatestMetrics] on a miss: the value the bridge resolved with,
    whatever it is, is stored under the key and returned. *)
Lemma getLatestMetrics_miss userId proc s :
  let key := cacheKey_of rt userId (now s) in
  let p := garmin_promise rt "get_latest_metrics" (user_params userId) proc s in
  let s1 := garmin_spawned rt "get_latest_metrics" (user_params userId) proc s in
  cache_hit key s = None ->
  exists dt v,
    settled p = Some (dt, Resolved v) /\
    getLatestMetrics rt userId proc s =
    Some (cache_metrics key (length (heap s))
            (set_heap (heap s ++ [v]) (resumed p dt s1))).
Proof.
  intros key p s1 Hmiss.
  destruct (await_garmin rt "get_latest_metrics" (user_params userId) proc s)
    as (dt & v & E & A).
  exists dt, v. split; [exact E |].
  unfold getLatestMetrics. fold key. rewrite Hmiss. revert A.
  subst p s1. unfold garmin_promise, garmin_spawned, callGarminDBService.
  cbv beta iota zeta. cbn [fst snd]. now intros ->.
Qed.

(** On a miss with a failing bridge, what is stored and returned is the
    fallback snapshot. *)
Lemma getLatestMetrics_failure userId proc s k m :
  cache_hit (cacheKey_of rt userId (now s)) s = None ->
  spec_invoke rt 15000 proc = Err k m ->
  exists a s',
    getLatestMetrics rt userId proc s = Some (a, s') /\
    garminCache s' !! cacheKey_of rt userId (now s) = Some a /\
    get_prop "dataSource" (deref s' a) = Some (JStr "fallback").
Proof.
  intros Hmiss H.
  destruct (getLatestMetrics_miss userId proc s Hmiss) as (dt & v & E & G).
  destruct (garmin_failure_fallback rt "get_latest_metrics"
              (user_params userId) proc s k m H) as (dt' & i & E' & _).
  rewrite E' in E. inversion E; subst dt' v; clear E.
  do 2 eexists. split; [exact G |]. split.
  - simpl. apply lookup_insert_eq.
  - unfold deref. simpl heap. rewrite list_lookup_middle by reflexivity.
    reflexivity.
Qed.

Lemma getLatestMetrics_hit userId proc s a :
  cache_hit (cacheKey_of rt userId (now s)) s = Some a ->
  getLatestMetrics rt userId proc s = Some (a, s).
Proof. intros H. unfold getLatestMetrics. now rewrite H. Qed.

(** [syncGarminData]: the result of the bridge is returned and the
    cache is cleared, whatever the bridge resolved with. *)
Lemma syncGarminData_result userId proc s :
  let p := garmin_promise rt "sync_data" (user_params userId) proc s in
  let s1 := garmin_spawned rt "sync_data" (user_params userId) proc s in
  exists dt v,
    settled p = Some (dt, Resolved v) /\
    syncGarminData rt userId proc s =
    Some (length (heap s),
          clear_cache userId (set_heap (heap s ++ [v]) (resumed p dt s1))).
Proof.
  intros p s1.
  destruct (await_garmin rt "sync_data" (user_params userId) proc s)
    as (dt & v & E & A).
  exists dt, v. split; [exact E |].
  unfold syncGarminData. revert A.
  subst p s1. unfold garmin_promise, garmin_spawned, callGarminDBService.
  cbv beta iota zeta. cbn [fst snd]. now intros ->.
Qed.

(** After [syncGarminData(userId)], successful or not, no key that
    contains [userId] is left in the cache, and a key that does not
    contain it is left as the event loop left it. *)
Lemma syncGarminData_cache userId proc s r s' :
  syncGarminData rt userId proc s = Some (r, s') ->
  exists t, forall k,
    garminCache s' !! k =
    if includes userId k then None else garminCache (advance t s) !! k.
Proof.
  intros H. destruct (syncGarminData_result userId proc s) as (dt & v & _ & E).
  rewrite E in H. inversion H; subst; clear H.
  exists (now s + dt). intros k. now rewrite clear_cache_lookup.
Qed.

End ServiceFacts.

(** ** C2: a fallback snapshot is written to the cache *)

(** C2, on the code.  [getLatestMetrics("u1")] with a bridge process that
    exits with code 1: the fallback snapshot the bridge resolved with is
    stored in the cache under the user's key for the day, and a request
    one minute later, with a process that would answer, is served that
    cached fallback snapshot without any spawn. *)
Theorem fallback_snapshot_is_cached :
  exists a s1,
    spec_invoke Node.runtime 15000 crashing = Err NonZeroExit "boom" /\
    getLatestMetrics Node.runtime "u1" crashing (boot Node.new_year_2026)
      = Some (a, s1) /\
    garminCache s1 !! "metrics_u1_Thu Jan 01 2026" = Some a /\
    get_prop "dataSource" (deref s1 a) = Some (JStr "fallback") /\
    getLatestMetrics Node.runtime "u1" healthy (advance (now s1 + 60000) s1)
      = Some (a, advance (now s1 + 60000) s1).
Proof.
  do 2 eexists. split; [reflexivity |].
  split; [vm_compute; reflexivity |].
  repeat split; vm_compute; reflexivity.
Qed.

(** ** C4: a failed sync clears the cache *)

(** C4, on the code.  With a live snapshot of user [u1] in the cache,
    [syncGarminData("u1")] whose bridge process exits with code 1 returns
    the report [success: false] and the user's entry is gone. *)
Theorem failed_sync_clears_cache :
  exists a s1 r s2,
    getLatestMetrics Node.runtime "u1" healthy (boot Node.new_year_2026)
      = Some (a, s1) /\
    garminCache s1 !! "metrics_u1_Thu Jan 01 2026" = Some a /\
    spec_invoke Node.runtime 15000 crashing = Err NonZeroExit "boom" /\
    syncGarminData Node.runtime "u1" crashing s1 = Some (r, s2) /\
    get_prop "success" (deref s2 r) = Some (JBool false) /\
    garminCache s2 !! "metrics_u1_Thu Jan 01 2026" = None.
Proof.
  do 4 eexists. split; [vm_compute; reflexivity |].
  split; [vm_compute; reflexivity |].
  split; [reflexivity |].
  split; [vm_compute; reflexivity |].
  split; vm_compute; reflexivity.
Qed.

(** ** C5: invalidation matches keys by substring *)

(** C5, on the code.  With snapshots of users [u10] and [u1] in the
    cache, a successful [syncGarminData("u1")] also removes the entry of
    [u10], whose key contains ["u1"]. *)
Theorem sync_clears_other_users :
  exists a1 s1 a2 s2 r s3,
    getLatestMetrics Node.runtime "u10" healthy (boot Node.new_year_2026)
      = Some (a1, s1) /\
    getLatestMetrics Node.runtime "u1" healthy s1 = Some (a2, s2) /\
    garminCache s2 !! "metrics_u10_Thu Jan 01 2026" = Some a1 /\
    spec_invoke Node.runtime 15000 synced = Ok (JObj [("success", JBool true)]) /\
    syncGarminData Node.runtime "u1" synced s2 = Some (r, s3) /\
    deref s3 r = JObj [("success", JBool true)] /\
    garminCache s3 !! "metrics_u1_Thu Jan 01 2026" = None /\
    garminCache s3 !! "metrics_u10_Thu Jan 01 2026" = None.
Proof.
  do 6 eexists. split; [vm_compute; reflexivity |].
  split; [vm_compute; reflexivity |].
  split; [vm_compute; reflexivity |].
  split; [vm_compute; reflexivity |].
  split; [vm_compute; reflexivity |].
  repeat split; vm_compute; reflexivity.
Qed.

(** ** Delays *)

Section DelayFacts.
Context (rt : Runtime) (action : string) (t0 : Z) (i0 : nat).

Lemma settle_after_spawn dt o r :
  0 <= dt -> settled_after_spawn r -> settled_after_spawn (settle dt o r).
Proof.
  unfold settled_after_spawn. rewrite settled_settle.
  destruct (settled r) as [[d x] |]; auto.
Qed.

Lemma garmin_on_timeout_after_spawn r :
  settled_after_spawn r ->
  settled_after_spawn (garmin_on_timeout rt action t0 i0 r).
Proof.
  intros H. unfold garmin_on_timeout, resolve_fallback.
  apply settle_after_spawn; [lia | exact H].
Qed.

Lemma garmin_on_event_after_spawn dt e r :
  0 <= dt -> settled_after_spawn r ->
  settled_after_spawn (garmin_on_event rt action t0 i0 dt e r).
Proof.
  intros Hdt H. destruct e as [c | c | code]; simpl; auto.
  unfold garmin_on_close, resolve_fallback.
  destruct code as [[| p | p] |]; try destruct (JSON_parse rt (result r));
    apply settle_after_spawn; auto.
Qed.

Lemma garmin_run_after_spawn proc :
  causal proc -> settled_after_spawn (garmin_run rt action t0 i0 proc).
Proof.
  intros Hc. rewrite garmin_run_unfold.
  assert (G : forall r, settled_after_spawn r ->
              settled_after_spawn
                (foldl (deliver 15000 (garmin_on_timeout rt action t0 i0)
                                (garmin_on_event rt action t0 i0)) r proc)).
  { induction Hc as [| e proc He Hc IH]; intros r Hr; simpl; auto.
    apply IH. unfold deliver. apply garmin_on_event_after_spawn; auto.
    destruct (timer_fired r); auto.
    destruct (15000 <=? fst e)%Z; auto using garmin_on_timeout_after_spawn. }
  unfold finish.
  destruct (timer_fired _); [apply G; exact I |].
  apply garmin_on_timeout_after_spawn, G. exact I.
Qed.

Lemma garmin_settled_nonneg proc dt o :
  causal proc ->
  settled (garmin_run rt action t0 i0 proc) = Some (dt, o) -> 0 <= dt.
Proof.
  intros Hc E. pose proof (garmin_run_after_spawn proc Hc) as H.
  unfold settled_after_spawn in H. now rewrite E in H.
Qed.

End DelayFacts.

(** ** Eviction by timer *)

Section EvictionFacts.
Context (rt : Runtime).

Lemma evictable_boot t : evictable (boot t).
Proof. intros k a H. simpl in H. now rewrite lookup_empty in H. Qed.

Lemma evictable_same s s' :
  garminCache s' = garminCache s -> timers s' = timers s -> now s' = now s ->
  evictable s -> evictable s'.
Proof. unfold evictable. intros -> -> ->. auto. Qed.

Lemma advance_fired t s d k :
  In (d, k) (timers s) -> d <= t -> garminCache (advance t s) !! k = None.
Proof.
  intros Hin Hd. simpl. apply expire_lookup_fired.
  apply list_elem_of_fmap. exists (d, k). split; [reflexivity |].
  apply list_elem_of_filter. split; [exact Hd | now apply list_elem_of_In].
Qed.

Lemma evictable_advance t s :
  now s <= t -> evictable s -> evictable (advance t s).
Proof.
  intros Ht Hs k a H. simpl in H.
  apply expire_lookup_Some in H as [H Hout].
  destruct (Hs k a H) as (d & Hin & Hd).
  exists d. simpl. split; [| unfold TTL in *; lia].
  apply list_elem_of_In, list_elem_of_filter.
  split; [| now apply list_elem_of_In].
  intros Hdue. apply Hout.
  apply list_elem_of_fmap. exists (d, k). split; [reflexivity |].
  apply list_elem_of_filter. split; [exact Hdue | now apply list_elem_of_In].
Qed.

Lemma evictable_cache_metrics key m s :
  evictable s -> evictable (snd (cache_metrics key m s)).
Proof.
  intros Hs k a H. simpl in *.
  destruct (decide (key = k)) as [-> | Hne].
  - exists (now s + 1800000). split; [| unfold TTL; lia].
    apply in_or_app. right. now left.
  - rewrite lookup_insert_ne in H by assumption.
    destruct (Hs k a H) as (d & Hin & Hd).
    exists d. split; [apply in_or_app; now left | exact Hd].
Qed.

Lemma evictable_clear_cache userId s :
  evictable s -> evictable (clear_cache userId s).
Proof.
  intros Hs k a H. rewrite clear_cache_lookup in H.
  destruct (includes userId k); [discriminate |]. exact (Hs k a H).
Qed.

Lemma evictable_resumed r dt s :
  0 <= dt -> evictable s -> evictable (resumed r dt s).
Proof.
  intros Hdt Hs. unfold resumed.
  apply (evictable_same (advance (now s + dt) s)); try reflexivity.
  apply evictable_advance; [lia | exact Hs].
Qed.

Lemma evictable_getLatestMetrics userId proc s a s' :
  causal proc -> evictable s ->
  getLatestMetrics rt userId proc s = Some (a, s') -> evictable s'.
Proof.
  intros Hc Hs H.
  destruct (cache_hit (cacheKey_of rt userId (now s)) s) as [b |] eqn:Hit.
  - rewrite (getLatestMetrics_hit rt userId proc s b Hit) in H.
    now inversion H; subst.
  - destruct (getLatestMetrics_miss rt userId proc s Hit) as (dt & v & E & G).
    rewrite G in H.
    match type of H with
    | Some ?x = _ => assert (Es : s' = snd x) by now inversion H
    end.
    rewrite Es. apply evictable_cache_metrics.
    eapply evictable_same; [reflexivity | reflexivity | reflexivity |].
    apply evictable_resumed.
    + eapply garmin_settled_nonneg; [exact Hc | exact E].
    + eapply evictable_same; [| | | exact Hs]; reflexivity.
Qed.

Lemma evictable_syncGarminData userId proc s r s' :
  causal proc -> evictable s ->
  syncGarminData rt userId proc s = Some (r, s') -> evictable s'.
Proof.
  intros Hc Hs H.
  destruct (syncGarminData_result rt userId proc s) as (dt & v & E & G).
  rewrite G in H.
  match type of H with
  | Some ?x = _ => assert (Es : s' = snd x) by now inversion H
  end.
  rewrite Es. cbn [snd]. apply evictable_clear_cache.
  eapply evictable_same; [reflexivity | reflexivity | reflexivity |].
  apply evictable_resumed.
  - eapply garmin_settled_nonneg; [exact Hc | exact E].
  - eapply evictable_same; [| | | exact Hs]; reflexivity.
Qed.

End EvictionFacts.

(** ** C6: expiry is a timer, not a check at lookup *)

(** C6 as stated fails.  An entry is written at boot time; 30 minutes and
    5 seconds later the callback that deletes it is overdue but has not
    run.  The lookup of [getLatestMetrics] returns the entry and leaves
    it in the cache: nothing in the lookup compares times or removes
    anything. *)
Lemma lookup_returns_overdue_entry :
  exists a s1,
    getLatestMetrics Node.runtime "u1" healthy (boot Node.new_year_2026)
      = Some (a, s1) /\
    let late := clock (now s1 + TTL + 5000) s1 in
    In (now s1 + TTL, "metrics_u1_Thu Jan 01 2026") (timers late) /\
    now s1 + TTL < now late /\
    getLatestMetrics Node.runtime "u1" [] late = Some (a, late) /\
    garminCache late !! "metrics_u1_Thu Jan 01 2026" = Some a.
Proof.
  do 2 eexists. split; [vm_compute; reflexivity |].
  cbv zeta. split; [left; vm_compute; reflexivity |].
  split; [vm_compute; reflexivity |].
  split; vm_compute; reflexivity.
Qed.

(** C6, amended.  The cache lookup of [getLatestMetrics] is a plain read:
    a hit returns the stored object and changes nothing, with no expiry
    check.  Entries carry no expiry time; a write schedules a callback
    that deletes the key 1,800,000 ms later, and the event loop deletes a
    key once such a callback is due.  As long as callbacks run when due,
    every key in the cache has a pending deletion within the next 30
    minutes: this holds when the server starts and is kept by
    [getLatestMetrics], by [syncGarminData] and by the passing of
    time. *)
Theorem eviction_is_by_timer (rt : Runtime) (userId : string) (proc : Trace)
    (s : State) :
  let key := cacheKey_of rt userId (now s) in
  (forall a, cache_hit key s = Some a ->
             getLatestMetrics rt userId proc s = Some (a, s)) /\
  (cache_hit key s = None ->
   exists a s', getLatestMetrics rt userId proc s = Some (a, s') /\
                garminCache s' !! key = Some a /\
                In (now s' + TTL, key) (timers s')) /\
  (forall t d k, In (d, k) (timers s) -> d <= t ->
                 garminCache (advance t s) !! k = None) /\
  (forall t, evictable (boot t)) /\
  (forall t, now s <= t -> evictable s -> evictable (advance t s)) /\
  (forall a s', causal proc -> evictable s ->
                getLatestMetrics rt userId proc s = Some (a, s') ->
                evictable s') /\
  (forall r s', causal proc -> evictable s ->
                syncGarminData rt userId proc s = Some (r, s') ->
                evictable s').
Proof.
  intros key. repeat apply conj.
  - intros a. apply getLatestMetrics_hit.
  - intros Hmiss.
    destruct (getLatestMetrics_miss rt userId proc s Hmiss) as (dt & v & _ & G).
    do 2 eexists. split; [exact G |]. simpl. split.
    + apply lookup_insert_eq.
    + apply in_or_app. right. now left.
  - intros t d k. apply advance_fired.
  - apply evictable_boot.
  - intros t. apply evictable_advance.
  - intros a s'. apply evictable_getLatestMetrics.
  - intros r s'. apply evictable_syncGarminData.
Qed.

Lemma eviction_is_by_timer_witness :
  exists a s',
    getLatestMetrics Node.runtime "u1" healthy (boot Node.new_year_2026)
      = Some (a, s') /\
    garminCache s' !! cacheKey_of Node.runtime "u1" Node.new_year_2026 = Some a /\
    In (now s' + TTL, cacheKey_of Node.runtime "u1" Node.new_year_2026)
       (timers s').
Proof.
  apply (proj1 (proj2 (eviction_is_by_timer Node.runtime "u1" healthy
                         (boot Node.new_year_2026)))).
  reflexivity.
Defined.

(** ** C7: a second call within the TTL window *)


Lemma heap_last (h : list JValue) (v : JValue) :
  default JUndefined ((h ++ [v])%list !! length h) = v.
Proof. now rewrite list_lookup_middle. Qed.



(** ** The agent bridge *)

Section AgentFacts.
Context (rt : Runtime).

Abbreviation agent_step :=
  (deliver 30000 agent_on_timeout (agent_on_event rt)).

Lemma agent_on_event_keeps dt e r x :
  settled r = Some x -> settled (agent_on_event rt dt e r) = Some x.
Proof.
  intros H. destruct e as [c | c | code]; simpl; auto.
  unfold agent_on_close.
  destruct code as [[| p | p] |]; try destruct (JSON_parse rt (result r));
    rewrite settled_settle; now rewrite H.
Qed.

Lemma agent_on_timeout_keeps r x :
  settled r = Some x -> settled (agent_on_timeout r) = Some x.
Proof.
  intros H. unfold agent_on_timeout. rewrite settled_settle. simpl.
  now rewrite H.
Qed.

Lemma agent_keeps proc : forall r x,
  settled r = Some x -> settled (agent_finish (foldl agent_step r proc)) = Some x.
Proof.
  induction proc as [| e proc IH]; intros r x H; simpl.
  - unfold agent_finish. destruct (timer_fired r); auto using agent_on_timeout_keeps.
  - apply IH. unfold deliver. apply agent_on_event_keeps.
    destruct (timer_fired r); auto.
    destruct (30000 <=? fst e)%Z; auto using agent_on_timeout_keeps.
Qed.

Lemma agent_collect proc : forall r,
  settled r = None -> timer_fired r = false ->
  agent_post (spec_collect rt 30000 (result r) (error r) proc)
             (agent_finish (foldl agent_step r proc)).
Proof.
  induction proc as [| [dt e] proc IH]; intros r Hs Hf.
  - simpl. unfold agent_finish. rewrite Hf. unfold agent_on_timeout.
    rewrite settled_settle. simpl. now rewrite Hs.
  - cbn [foldl spec_collect]. unfold deliver at 2. rewrite Hf. cbn [fst snd].
    destruct (30000 <=? dt)%Z.
    + simpl. apply agent_keeps, agent_on_event_keeps.
      unfold agent_on_timeout. rewrite settled_settle. simpl. now rewrite Hs.
    + destruct e as [c | c | code].
      * apply (IH (append_result c r)); assumption.
      * apply (IH (append_error c r)); assumption.
      * cbn [agent_on_event]. unfold agent_on_close.
        destruct code as [[| p | p] |];
          try destruct (JSON_parse rt (result r)) as [v |] eqn:P;
          simpl; eexists; apply agent_keeps; rewrite settled_settle, Hs;
          reflexivity.
Qed.

Lemma callAgent_post requestType data message proc s :
  agent_post (spec_invoke rt 30000 proc)
             (fst (callAgent rt requestType data message proc s)).
Proof. apply (agent_collect proc fresh_run); reflexivity. Qed.

(** A failing agent process makes [await callAgent(...)] throw. *)
Lemma callAgent_throws requestType data message proc s k m :
  spec_invoke rt 30000 proc = Err k m ->
  exists e s',
    await (fst (callAgent rt requestType data message proc s))
          (snd (callAgent rt requestType data message proc s))
    = Some (Thrown e, s').
Proof.
  intros H. pose proof (callAgent_post requestType data message proc s) as P.
  rewrite H in P.
  destruct k; simpl in P.
  - destruct P as [dt P]. do 2 eexists. apply (await_rejected _ _ _ _ P).
  - destruct P as [dt P]. do 2 eexists. apply (await_rejected _ _ _ _ P).
  - do 2 eexists. apply (await_rejected _ _ _ _ P).
Qed.

Lemma getLatestMetrics_returns userId proc s :
  exists a s', getLatestMetrics rt userId proc s = Some (a, s').
Proof.
  destruct (cache_hit (cacheKey_of rt userId (now s)) s) as [b |] eqn:Hit.
  - rewrite (getLatestMetrics_hit rt userId proc s b Hit). eauto.
  - destruct (getLatestMetrics_miss rt userId proc s Hit) as (dt & v & _ & G).
    rewrite G. unfold cache_metrics. eauto.
Qed.

Lemma analyze_route_failure req proc s k m :
  spec_invoke rt 30000 proc = Err k m ->
  exists s', analyze_route rt req proc s = Some (analyze_failure, s').
Proof.
  intros H. unfold analyze_route.
  destruct (get_prop "request_type" (body req)) as [request_type |]; [| eauto].
  destruct (get_prop "data" (body req)) as [data |]; [| eauto].
  destruct (callAgent_throws request_type data JUndefined proc s k m H)
    as (e & s' & A).
  destruct (callAgent rt request_type data JUndefined proc s) as [p s1].
  cbn [fst snd] in A. rewrite A. eauto.
Qed.

Lemma chat_route_failure req mproc aproc s k m :
  spec_invoke rt 30000 aproc = Err k m ->
  exists s', chat_route rt req mproc aproc s = Some (chat_failure, s').
Proof.
  intros H. unfold chat_route.
  destruct (get_prop "message" (body req)) as [message |]; [| eauto].
  destruct (get_prop "conversation_history" (body req)) as [history |];
    [| eauto].
  destruct (getLatestMetrics_returns (userId_of req) mproc s) as (a & s1 & G).
  rewrite G.
  destruct (callAgent_throws (JStr "chat") (deref s1 a) message aproc s1 k m H)
    as (e & s' & A).
  destruct (callAgent rt (JStr "chat") (deref s1 a) message aproc s1) as [p s2].
  cbn [fst snd] in A. rewrite A. eauto.
Qed.

(** The metrics route on a miss with a failing bridge: status 200 and
    the fallback snapshot. *)
Lemma latest_metrics_route_failure req proc s k m :
  spec_invoke rt 15000 proc = Err k m ->
  cache_hit (cacheKey_of rt (userId_of req) (now s)) s = None ->
  exists j s',
    latest_metrics_route rt req proc s = Some ({| status := 200; json := j |}, s') /\
    get_prop "dataSource" j = Some (JStr "fallback") /\
    get_prop "demoNotice" j = Some demoNotice.
Proof.
  intros H Hmiss. unfold latest_metrics_route.
  destruct (getLatestMetrics_miss rt (userId_of req) proc s Hmiss)
    as (dt & v & E & G).
  destruct (garmin_failure_fallback rt "get_latest_metrics"
              (user_params (userId_of req)) proc s k m H) as (dt' & i & E' & _).
  rewrite E' in E. inversion E; subst dt' v; clear E.
  rewrite G. unfold cache_metrics.
  match goal with
  | |- context [deref ?st (length (heap s))] =>
      assert (D : deref st (length (heap s)) =
                  getFallbackData rt i (now s + dt) "get_latest_metrics")
        by (unfold deref; simpl; apply heap_last)
  end.
  rewrite D. cbn [getFallbackData]. simpl get_prop. cbn [is_fallback String.eqb].
  simpl is_fallback. cbv iota.
  do 2 eexists. split; [reflexivity |].
  unfold deref. simpl heap.
  rewrite list_lookup_insert_eq
    by (rewrite length_app; simpl; lia).
  split; reflexivity.
Qed.

End AgentFacts.

(** ** C3: what the HTTP caller receives on an upstream failure *)

(** C3 as stated fails.  [POST /agent/analyze] with an agent process
    that exits with code 1 is answered with HTTP status 500. *)
Lemma analyze_failure_is_status_500 :
  exists r s',
    spec_invoke Node.runtime 30000 crashing = Err NonZeroExit "boom" /\
    analyze_route Node.runtime analyze_request crashing (boot Node.new_year_2026)
      = Some (r, s') /\
    status r = 500.
Proof.
  do 2 eexists. split; [reflexivity |].
  split; [vm_compute; reflexivity |]. reflexivity.
Qed.

Lemma sync_route_ok (rt : Runtime) req proc s :
  exists j s', sync_route rt req proc s = Some ({| status := 200; json := j |}, s').
Proof.
  unfold sync_route.
  destruct (syncGarminData_result rt (userId_of req) proc s) as (dt & v & _ & G).
  rewrite G. eauto.
Qed.

Lemma weekly_summary_route_ok (rt : Runtime) req proc s :
  exists j s',
    weekly_summary_route rt req proc s = Some ({| status := 200; json := j |}, s').
Proof.
  unfold weekly_summary_route, getWeeklySummary.
  destruct (await_garmin rt "get_weekly_summary" (user_params (userId_of req))
              proc s) as (dt & v & _ & A).
  revert A. unfold garmin_promise, garmin_spawned, callGarminDBService.
  cbv beta iota zeta. cbn [fst snd]. intros ->. eauto.
Qed.

(** C3, amended.  A failure of a bridge process (timeout, non-zero exit,
    unparsable output) never escapes a route handler as an exception.
    The metrics routes answer 200: on a cache miss [latest-metrics]
    carries the fallback snapshot, and [sync] and [weekly-summary] always
    answer 200.  The agent routes catch the rejection and answer with
    HTTP status 500, whose body carries the canned content: for
    [analyze] a list of one insight tagged [agent: 'system'], for [chat]
    a reply tagged [agent_type: 'system']. *)
Theorem upstream_failure_is_substituted
    (rt : Runtime) (req : Request) (proc : Trace) (s : State) k m :
  (spec_invoke rt 15000 proc = Err k m ->
   cache_hit (cacheKey_of rt (userId_of req) (now s)) s = None ->
   exists j s',
     latest_metrics_route rt req proc s = Some ({| status := 200; json := j |}, s') /\
     get_prop "dataSource" j = Some (JStr "fallback")) /\
  (exists j s', sync_route rt req proc s = Some ({| status := 200; json := j |}, s')) /\
  (exists j s',
     weekly_summary_route rt req proc s = Some ({| status := 200; json := j |}, s')) /\
  (spec_invoke rt 30000 proc = Err k m ->
   (exists s', analyze_route rt req proc s = Some (analyze_failure, s')) /\
   (forall mproc, exists s',
       chat_route rt req mproc proc s = Some (chat_failure, s'))) /\
  status analyze_failure = 500 /\
  (exists insight,
      get_prop "insights" (json analyze_failure) = Some (JArr [insight]) /\
      get_prop "agent" insight = Some (JStr "system")) /\
  status chat_failure = 500 /\
  get_prop "agent_type" (json chat_failure) = Some (JStr "system").
Proof.
  repeat apply conj.
  - intros H Hmiss.
    destruct (latest_metrics_route_failure rt req proc s k m H Hmiss)
      as (j & s' & R & D & _). eauto.
  - apply sync_route_ok.
  - apply weekly_summary_route_ok.
  - intros H. split.
    + eapply analyze_route_failure. exact H.
    + intros mproc. eapply chat_route_failure. exact H.
  - reflexivity.
  - eexists. split; reflexivity.
  - reflexivity.
  - reflexivity.
Qed.

Lemma upstream_failure_is_substituted_witness :
  (exists s', analyze_route Node.runtime analyze_request crashing
                (boot Node.new_year_2026) = Some (analyze_failure, s')) /\
  (exists j s',
     latest_metrics_route Node.runtime analyze_request crashing
       (boot Node.new_year_2026) = Some ({| status := 200; json := j |}, s') /\
     get_prop "dataSource" j = Some (JStr "fallback")).
Proof.
  pose proof (upstream_failure_is_substituted Node.runtime analyze_request
                crashing (boot Node.new_year_2026) NonZeroExit "boom") as H.
  split.
  - apply H. reflexivity.
  - apply H; reflexivity.
Defined.

(** ** C8: the chat payload *)

(** The chat route never looks at [conversation_history]. *)
Lemma chat_route_ignores_history (rt : Runtime) uid fields1 fields2 mproc aproc s :
  obj_get "message" fields1 = obj_get "message" fields2 ->
  chat_route rt {| user_id := uid; body := JObj fields1 |} mproc aproc s =
  chat_route rt {| user_id := uid; body := JObj fields2 |} mproc aproc s.
Proof. intros H. unfold chat_route. simpl. now rewrite H. Qed.

(** C8, on the code.  [POST /agent/chat] with a message and a history of
    one turn: the document passed to the agent program holds the request
    type, the metrics snapshot and the message, and nothing of the
    history; the same request with an empty history spawns the same
    programs with the same documents. *)
Theorem chat_payload_has_no_history :
  exists r s',
    chat_route Node.runtime (chat_request one_turn) healthy replying
      (boot Node.new_year_2026) = Some (r, s') /\
    status r = 200 /\
    map payload (spawned s') =
      [ JObj [ ("action", JStr "get_latest_metrics");
               ("params", JObj [("user_id", JStr "u1")]);
               ("garmindb_path", JStr "/home/fitai/GarminDB") ];
        JObj [ ("request_type", JStr "chat");
               ("data", JObj [("steps", JNum 8547)]);
               ("message", JStr "How's my recovery?") ] ] /\
    chat_route Node.runtime (chat_request (JArr [])) healthy replying
      (boot Node.new_year_2026) = Some (r, s').
Proof.
  do 2 eexists. split; [vm_compute; reflexivity |].
  repeat split; vm_compute; reflexivity.
Qed.

(** * Further properties of the server *)

(** ** How long a bridge call takes *)

Section TimingFacts.
Context (rt : Runtime) (action : string) (t0 : Z) (i0 : nat).

Lemma settle_by limit dt o r :
  dt <= limit -> settled_by limit r -> settled_by limit (settle dt o r).
Proof.
  unfold settled_by. rewrite settled_settle. intros Hdt H.
  destruct (settled r) as [[d x] |]; auto.
Qed.

Lemma garmin_on_timeout_by r :
  settled_by 15000 r \/ settled r = None ->
  settled_by 15000 (garmin_on_timeout rt action t0 i0 r).
Proof.
  intros H. unfold garmin_on_timeout, resolve_fallback, settled_by.
  rewrite settled_settle. simpl.
  destruct (settled r) as [[d x] |] eqn:E; [| lia].
  destruct H as [H | H]; [| discriminate].
  unfold settled_by in H. now rewrite E in H.
Qed.

Lemma garmin_on_event_by dt e r :
  dt <= 15000 -> settled_by 15000 r ->
  settled_by 15000 (garmin_on_event rt action t0 i0 dt e r).
Proof.
  intros Hdt H. destruct e as [c | c | code]; simpl; auto.
  unfold garmin_on_close, resolve_fallback, settled_by.
  destruct code as [[| p | p] |]; try destruct (JSON_parse rt (result r));
    rewrite settled_settle; simpl; unfold settled_by in H;
    destruct (settled r) as [[d x] |]; auto.
Qed.

Lemma garmin_on_event_by_settled dt e r :
  settled r <> None -> settled_by 15000 r ->
  settled_by 15000 (garmin_on_event rt action t0 i0 dt e r).
Proof.
  intros Hs H. destruct (settled r) as [x |] eqn:E; [| contradiction].
  unfold settled_by in *. rewrite (garmin_on_event_keeps rt action t0 i0 dt e r x E).
  now rewrite E in H.
Qed.

Lemma garmin_deliver_by r e :
  settled_by 15000 r ->
  settled_by 15000 (deliver 15000 (garmin_on_timeout rt action t0 i0)
                            (garmin_on_event rt action t0 i0) r e).
Proof.
  intros H. unfold deliver.
  destruct (timer_fired r) eqn:F.
  - apply garmin_on_event_by_settled; [| exact H].
    unfold settled_by in H. destruct (settled r); [discriminate | congruence].
  - destruct (15000 <=? fst e)%Z eqn:L.
    + apply garmin_on_event_by_settled; [| apply garmin_on_timeout_by; now left].
      unfold garmin_on_timeout, resolve_fallback. rewrite settled_settle.
      simpl. now destruct (settled r).
    + apply garmin_on_event_by; [| exact H]. apply Z.leb_gt in L. lia.
Qed.

Lemma garmin_run_by proc : settled_by 15000 (garmin_run rt action t0 i0 proc).
Proof.
  rewrite garmin_run_unfold.
  assert (G : forall r, settled_by 15000 r ->
              settled_by 15000
                (foldl (deliver 15000 (garmin_on_timeout rt action t0 i0)
                                (garmin_on_event rt action t0 i0)) r proc)).
  { induction proc as [| e proc IH]; intros r Hr; simpl; auto.
    apply IH, garmin_deliver_by, Hr. }
  unfold finish. destruct (timer_fired _); [apply G; reflexivity |].
  apply garmin_on_timeout_by. left. apply G. reflexivity.
Qed.

(** The promise of [callGarminDBService] settles between the spawn and
    15 s after it. *)
Lemma garmin_settled_in_time proc dt o :
  settled (garmin_run rt action t0 i0 proc) = Some (dt, o) ->
  dt <= 15000 /\ (causal proc -> 0 <= dt).
Proof.
  intros E. split.
  - pose proof (garmin_run_by proc) as H. unfold settled_by in H.
    now rewrite E in H.
  - intros Hc. eapply garmin_settled_nonneg; eauto.
Qed.

End TimingFacts.

Section AgentTimingFacts.
Context (rt : Runtime).

Abbreviation agent_deliver :=
  (deliver 30000 agent_on_timeout (agent_on_event rt)).

Lemma agent_on_timeout_settles r :
  exists x, settled (agent_on_timeout r) = Some x.
Proof.
  unfold agent_on_timeout. rewrite settled_settle. simpl.
  destruct (settled r); eauto.
Qed.

Lemma agent_on_timeout_by r :
  settled_by 30000 r \/ settled r = None ->
  settled_by 30000 (agent_on_timeout r).
Proof.
  intros H. unfold agent_on_timeout, settled_by.
  rewrite settled_settle. simpl.
  destruct (settled r) as [[d x] |] eqn:E; [| lia].
  destruct H as [H | H]; [| discriminate].
  unfold settled_by in H. now rewrite E in H.
Qed.

Lemma agent_on_event_fired dt e r :
  timer_fired (agent_on_event rt dt e r) = timer_fired r.
Proof.
  destruct e as [c | c | code]; simpl; auto. unfold agent_on_close.
  destruct code as [[| p | p] |]; try destruct (JSON_parse rt (result r));
    now rewrite fired_settle.
Qed.

Lemma agent_on_event_killed dt e r :
  killed (agent_on_event rt dt e r) = killed r.
Proof.
  destruct e as [c | c | code]; simpl; auto. unfold agent_on_close.
  destruct code as [[| p | p] |]; try destruct (JSON_parse rt (result r));
    now rewrite killed_settle.
Qed.

Lemma agent_on_event_drawn dt e r :
  drawn (agent_on_event rt dt e r) = drawn r /\
  errors_logged (agent_on_event rt dt e r) = errors_logged r.
Proof.
  destruct e as [c | c | code]; simpl; auto. unfold agent_on_close, settle.
  destruct code as [[| p | p] |]; try destruct (JSON_parse rt (result r));
    destruct (settled r); auto.
Qed.

Lemma agent_on_event_by dt e r :
  dt <= 30000 -> settled_by 30000 r ->
  settled_by 30000 (agent_on_event rt dt e r).
Proof.
  intros Hdt H. destruct e as [c | c | code]; simpl; auto.
  unfold agent_on_close, settled_by.
  destruct code as [[| p | p] |]; try destruct (JSON_parse rt (result r));
    rewrite settled_settle; unfold settled_by in H;
    destruct (settled r) as [[d x] |]; auto.
Qed.

Lemma agent_on_event_after_spawn dt e r :
  0 <= dt -> settled_after_spawn r ->
  settled_after_spawn (agent_on_event rt dt e r).
Proof.
  intros Hdt H. destruct e as [c | c | code]; simpl; auto.
  unfold agent_on_close.
  destruct code as [[| p | p] |]; try destruct (JSON_parse rt (result r));
    apply settle_after_spawn; auto.
Qed.

Lemma agent_deliver_by r e :
  settled_by 30000 r -> settled_by 30000 (agent_deliver r e).
Proof.
  intros H. unfold deliver.
  destruct (timer_fired r) eqn:F.
  - unfold settled_by in *. destruct (settled r) as [x |] eqn:E; [| congruence].
    now rewrite (agent_on_event_keeps rt _ _ r x E).
  - destruct (30000 <=? fst e)%Z eqn:L.
    + destruct (agent_on_timeout_settles r) as [x Hx].
      pose proof (agent_on_timeout_by r (or_introl H)) as B.
      unfold settled_by in *. rewrite (agent_on_event_keeps rt _ _ _ x Hx).
      now rewrite Hx in B.
    + apply agent_on_event_by; [| exact H]. apply Z.leb_gt in L. lia.
Qed.

Lemma agent_deliver_after_spawn r e :
  0 <= fst e -> settled_after_spawn r -> settled_after_spawn (agent_deliver r e).
Proof.
  intros He H. unfold deliver. apply agent_on_event_after_spawn; auto.
  destruct (timer_fired r); auto.
  destruct (30000 <=? fst e)%Z; auto.
  unfold agent_on_timeout. apply settle_after_spawn; [lia | exact H].
Qed.

Lemma agent_deliver_kill r e :
  timer_fired r = killed r ->
  timer_fired (agent_deliver r e) = killed (agent_deliver r e).
Proof.
  intros H. unfold deliver. rewrite agent_on_event_fired, agent_on_event_killed.
  destruct (timer_fired r) eqn:F; [now rewrite F |].
  destruct (30000 <=? fst e)%Z; [| now rewrite F].
  unfold agent_on_timeout. now rewrite fired_settle, killed_settle.
Qed.

Lemma agent_deliver_quiet r e :
  drawn r = 0%nat /\ errors_logged r = [] ->
  drawn (agent_deliver r e) = 0%nat /\ errors_logged (agent_deliver r e) = [].
Proof.
  intros [H1 H2]. unfold deliver.
  destruct (agent_on_event_drawn (fst e) (snd e)
              (if timer_fired r then r
               else if (30000 <=? fst e)%Z then agent_on_timeout r else r))
    as [-> ->].
  destruct (timer_fired r); auto.
  destruct (30000 <=? fst e)%Z; auto.
  unfold agent_on_timeout, settle. destruct (settled (kill_run r)); auto.
Qed.

(** The run of [callAgent] on a process. *)
Lemma agent_fold_by (l : Trace) : forall r,
  settled_by 30000 r -> settled_by 30000 (foldl agent_deliver r l).
Proof.
  induction l as [| e l IH]; intros r Hr; simpl; auto.
  apply IH, agent_deliver_by, Hr.
Qed.

Lemma agent_fold_after_spawn (l : Trace) :
  causal l -> forall r,
  settled_after_spawn r -> settled_after_spawn (foldl agent_deliver r l).
Proof.
  intros Hc. induction Hc as [| e l He Hc IH]; intros r Hr; simpl; auto.
  apply IH, agent_deliver_after_spawn; auto.
Qed.

Lemma agent_fold_kill (l : Trace) : forall r,
  timer_fired r = killed r ->
  timer_fired (foldl agent_deliver r l) = killed (foldl agent_deliver r l).
Proof.
  induction l as [| e l IH]; intros r Hr; simpl; auto.
  apply IH, agent_deliver_kill, Hr.
Qed.

Lemma agent_fold_quiet (l : Trace) : forall r,
  drawn r = 0%nat /\ errors_logged r = [] ->
  drawn (foldl agent_deliver r l) = 0%nat /\
  errors_logged (foldl agent_deliver r l) = [].
Proof.
  induction l as [| e l IH]; intros r Hr; simpl; auto.
  apply IH, agent_deliver_quiet, Hr.
Qed.

(** The run of [callAgent] on a process. *)
Lemma agent_run_facts proc :
  let R := run_process 30000 agent_on_timeout (agent_on_event rt) proc in
  settled_by 30000 R /\ (causal proc -> settled_after_spawn R) /\
  killed R = true /\ drawn R = 0%nat /\ errors_logged R = [].
Proof.
  unfold run_process.
  pose proof (agent_fold_by proc fresh_run eq_refl) as B.
  pose proof (agent_fold_kill proc fresh_run eq_refl) as K.
  pose proof (agent_fold_quiet proc fresh_run (conj eq_refl eq_refl)) as Q.
  pose proof (fun Hc => agent_fold_after_spawn proc Hc fresh_run I) as A.
  destruct (timer_fired (foldl agent_deliver fresh_run proc)) eqn:F.
  - repeat split; auto; apply Q.
  - repeat split.
    + apply agent_on_timeout_by. now left.
    + intros Hc. unfold agent_on_timeout. apply settle_after_spawn; [lia |].
      apply (A Hc).
    + unfold agent_on_timeout. now rewrite killed_settle.
    + unfold agent_on_timeout, settle. destruct (settled (kill_run _)); apply Q.
    + unfold agent_on_timeout, settle. destruct (settled (kill_run _)); apply Q.
Qed.

End AgentTimingFacts.

Lemma append_assoc (a b c : string) : (a +:+ b) +:+ c = a +:+ b +:+ c.
Proof.
  induction a as [| ch a IH]; [reflexivity |].
  rewrite !append_cons. now rewrite IH.
Qed.

Lemma append_nil_r (a : string) : a +:+ EmptyString = a.
Proof.
  induction a as [| ch a IH]; [reflexivity |]. rewrite append_cons. now rewrite IH.
Qed.

Section MoreServiceFacts.
Context (rt : Runtime).

Lemma getWeeklySummary_result userId proc s :
  let p := garmin_promise rt "get_weekly_summary" (user_params userId) proc s in
  let s1 := garmin_spawned rt "get_weekly_summary" (user_params userId) proc s in
  exists dt v,
    settled p = Some (dt, Resolved v) /\
    getWeeklySummary rt userId proc s =
    Some (length (heap s), set_heap (heap s ++ [v]) (resumed p dt s1)).
Proof.
  intros p s1.
  destruct (await_garmin rt "get_weekly_summary" (user_params userId) proc s)
    as (dt & v & E & A).
  exists dt, v. split; [exact E |].
  unfold getWeeklySummary. revert A.
  subst p s1. unfold garmin_promise, garmin_spawned, callGarminDBService.
  cbv beta iota zeta. cbn [fst snd]. now intros ->.
Qed.

Lemma checkGarminDBStatus_result proc s :
  let p := garmin_promise rt "check_status" (JObj []) proc s in
  let s1 := garmin_spawned rt "check_status" (JObj []) proc s in
  exists dt v,
    settled p = Some (dt, Resolved v) /\
    checkGarminDBStatus rt proc s =
    Some (length (heap s), set_heap (heap s ++ [v]) (resumed p dt s1)).
Proof.
  intros p s1.
  destruct (await_garmin rt "check_status" (JObj []) proc s)
    as (dt & v & E & A).
  exists dt, v. split; [exact E |].
  unfold checkGarminDBStatus. revert A.
  subst p s1. unfold garmin_promise, garmin_spawned, callGarminDBService.
  cbv beta iota zeta. cbn [fst snd]. now intros ->.
Qed.

Lemma garmin_promise_in_time action params proc s dt o :
  settled (garmin_promise rt action params proc s) = Some (dt, o) ->
  dt <= 15000 /\ (causal proc -> 0 <= dt).
Proof. apply garmin_settled_in_time. Qed.

Lemma deref_last (s : State) (h : list JValue) (v : JValue) :
  deref (set_heap (h ++ [v]) s) (length h) = v.
Proof. unfold deref. simpl. apply heap_last. Qed.

End MoreServiceFacts.

(** ** X1: what [callAgent] settles with *)

(** X1.  [callAgent] spawns one process, with the request type, the data
    and the message ([null] when none was given) as its document.  Its
    promise resolves with the parsed stdout when the process exits with
    code 0 within 30 s; it is rejected with
    ['Agent process failed: ' + stderr] on another exit,
    ['Failed to parse agent response'] on stdout that does not parse, and
    ['Agent request timeout'] when 30 s pass first.  It settles no later
    than 30,000 ms after the spawn, [kill()] is called on every process,
    and nothing is written to the console. *)
Theorem callAgent_outcome (rt : Runtime) (requestType data message : JValue)
    (proc : Trace) (s : State) :
  let p := fst (callAgent rt requestType data message proc s) in
  let s1 := snd (callAgent rt requestType data message proc s) in
  match spec_invoke rt 30000 proc with
  | Ok v => exists dt, settled p = Some (dt, Resolved v)
  | Err NonZeroExit m =>
      exists dt, settled p = Some (dt, Rejected ("Agent process failed: " +:+ m))
  | Err ParseError _ =>
      exists dt, settled p = Some (dt, Rejected "Failed to parse agent response")
  | Err Timeout _ => settled p = Some (30000, Rejected "Agent request timeout")
  end /\
  (exists dt o, settled p = Some (dt, o) /\ dt <= 30000 /\
                (causal proc -> 0 <= dt)) /\
  killed p = true /\
  errors_logged p = [] /\
  spawned_once s s1 (agent_spawn requestType data (default_arg JNull message)) /\
  garminCache s1 = garminCache s /\ heap s1 = heap s.
Proof.
  intros p s1. subst p s1. unfold callAgent. cbn [fst snd].
  pose proof (callAgent_post rt requestType data message proc s) as P.
  unfold callAgent in P. cbn [fst] in P.
  destruct (agent_run_facts rt proc) as (B & A & K & _ & Q). cbv zeta in *.
  repeat apply conj; [exact P | | exact K | exact Q | reflexivity ..].
  destruct (settled (run_process 30000 agent_on_timeout (agent_on_event rt) proc))
    as [[dt o] |] eqn:E.
  - exists dt, o. unfold settled_by in B. rewrite E in B.
    repeat split; auto. intros Hc. specialize (A Hc).
    unfold settled_after_spawn in A. now rewrite E in A.
  - exfalso. destruct (spec_invoke rt 30000 proc) as [v | [] m]; simpl in P;
      rewrite E in P;
      first [discriminate P | destruct P as [dt P]; discriminate P].
Qed.

(** ** X2: stdout is reassembled before it is parsed *)

Section OutputFacts.
Context (rt : Runtime) (action : string) (t0 : Z) (i0 : nat).

Abbreviation garmin_deliver :=
  (deliver 15000 (garmin_on_timeout rt action t0 i0)
           (garmin_on_event rt action t0 i0)).

Lemma garmin_fold_output (pre : Trace) :
  output_before 15000 pre -> forall r,
  settled r = None -> timer_fired r = false ->
  let r' := foldl garmin_deliver r pre in
  result r' = result r +:+ stdout_of pre /\
  error r' = error r +:+ stderr_of pre /\
  settled r' = None /\ timer_fired r' = false /\
  drawn r' = drawn r /\ errors_logged r' = errors_logged r.
Proof.
  intros Hpre. induction Hpre as [| [dt e] pre [Hdt He] Hpre IH];
    intros r Hs Hf; cbv zeta in *.
  - simpl. rewrite !append_nil_r. repeat split; assumption.
  - cbn [fst snd] in *.
    assert (L : (15000 <=? dt)%Z = false) by (apply Z.leb_gt; lia).
    assert (D : garmin_deliver r (dt, e) = garmin_on_event rt action t0 i0 dt e r)
      by (unfold deliver; rewrite Hf; cbn [fst snd]; now rewrite L).
    cbn [foldl]. rewrite D.
    destruct e as [c | c | code]; [| | contradiction].
    + destruct (IH (append_result c r) Hs Hf) as (R1 & R2 & R3 & R4 & R5 & R6).
      cbn [garmin_on_event]. rewrite R1, R2, R3, R4, R5, R6. simpl.
      now rewrite append_assoc.
    + destruct (IH (append_error c r) Hs Hf) as (R1 & R2 & R3 & R4 & R5 & R6).
      cbn [garmin_on_event]. rewrite R1, R2, R3, R4, R5, R6. simpl.
      now rewrite append_assoc.
Qed.

End OutputFacts.

(** X2.  When the process writes its output in any number of stdout and
    stderr chunks and closes before the 15 s limit, the promise of
    [callGarminDBService] settles at the close, whatever is delivered
    afterwards: with the parse of the concatenated stdout chunks when the
    exit code is 0 and they parse, and otherwise with the fallback data
    of the action; after an exit code other than 0 the console holds the
    line ['GarminDB service failed: '] followed by the concatenated
    stderr chunks. *)
Theorem stdout_is_reassembled (rt : Runtime) (action : string) (params : JValue)
    (pre post : Trace) (d : Z) (code : option Z) (s : State) :
  output_before 15000 pre -> d < 15000 ->
  let p := garmin_promise rt action params ((pre ++ (d, Close code) :: post)%list) s in
  settled p =
    Some (d, Resolved
      match code, JSON_parse rt (stdout_of pre) with
      | Some 0, Some v => v
      | _, _ => getFallbackData rt (draws s) (now s + d) action
      end) /\
  (code <> Some 0 ->
   In ("GarminDB service failed: " +:+ stderr_of pre) (errors_logged p)).
Proof.
  intros Hpre Hd p. subst p.
  unfold garmin_promise, callGarminDBService. cbn [fst].
  rewrite garmin_run_unfold, foldl_app. cbn [foldl].
  destruct (garmin_fold_output rt action (now s) (draws s) pre Hpre fresh_run
              eq_refl eq_refl) as (R1 & R2 & R3 & R4 & R5 & R6).
  cbv zeta in *. simpl in R1, R2, R5, R6. rewrite append_nil in R1, R2.
  set (r := foldl _ fresh_run pre) in *.
  assert (L : (15000 <=? d)%Z = false) by (apply Z.leb_gt; lia).
  assert (D : deliver 15000 (garmin_on_timeout rt action (now s) (draws s))
                (garmin_on_event rt action (now s) (draws s)) r (d, Close code)
              = garmin_on_close rt action (now s) (draws s) d code r)
    by (unfold deliver; rewrite R4; cbn [fst snd]; now rewrite L).
  rewrite D.
  assert (F : forall line,
            let r' := resolve_fallback rt action (now s) (draws s) d
                        (console_error_run line r) in
            settled r' = Some (d, Resolved
                          (getFallbackData rt (draws s) (now s + d) action)) /\
            In line (errors_logged r')).
  { intros line r'. subst r'. unfold resolve_fallback.
    rewrite settled_settle, errors_settle. simpl. rewrite R3, R5, R6.
    rewrite Nat.add_0_r. split; [reflexivity | now left]. }
  assert (K : forall r' x, settled r' = Some x ->
              settled (finish rt action (now s) (draws s)
                         (foldl (deliver 15000
                                   (garmin_on_timeout rt action (now s) (draws s))
                                   (garmin_on_event rt action (now s) (draws s)))
                                r' post)) = Some x)
    by (intros r' x Hx; now apply finish_keeps, foldl_keeps).
  assert (G : forall r' l, In l (errors_logged r') ->
              In l (errors_logged
                      (finish rt action (now s) (draws s)
                         (foldl (deliver 15000
                                   (garmin_on_timeout rt action (now s) (draws s))
                                   (garmin_on_event rt action (now s) (draws s)))
                                r' post))))
    by (intros r' l Hl; now apply finish_logged, foldl_logged).
  unfold garmin_on_close. rewrite R1, R2.
  destruct code as [[| c | c] |].
  - destruct (JSON_parse rt (stdout_of pre)) as [v |].
    + split; [| congruence]. apply K. now rewrite settled_settle, R3.
    + destruct (F "Parse error:") as [F1 F2]. split; [now apply K | congruence].
  - destruct (F ("GarminDB service failed: " +:+ stderr_of pre)) as [F1 F2].
    split; [now apply K | intros _; now apply G].
  - destruct (F ("GarminDB service failed: " +:+ stderr_of pre)) as [F1 F2].
    split; [now apply K | intros _; now apply G].
  - destruct (F ("GarminDB service failed: " +:+ stderr_of pre)) as [F1 F2].
    split; [now apply K | intros _; now apply G].
Qed.

Lemma stdout_is_reassembled_witness :
  settled (garmin_promise Node.runtime "get_latest_metrics" (user_params "u1")
             ((chunked ++ (140, Close (Some 0)) :: [(150, StdoutData "x")])%list)
             (boot Node.new_year_2026)) =
  Some (140, Resolved (JObj [("steps", JNum 8547)])).
Proof.
  refine (proj1 (stdout_is_reassembled Node.runtime "get_latest_metrics"
                   (user_params "u1") chunked [(150, StdoutData "x")] 140
                   (Some 0) (boot Node.new_year_2026) _ _)).
  - repeat constructor; simpl; lia.
  - reflexivity.
Defined.

(** ** X3: the weekly summary goes past the cache *)

(** X3.  [getWeeklySummary] always spawns the metrics program once, with
    action [get_weekly_summary] and the user's id, and returns what the
    bridge resolved with: the parsed document when the program succeeds,
    and on any failure the demo summary, which is the same for every
    call.  It neither reads nor writes the cache: the cache and the
    pending deletions are as the event loop left them. *)
Theorem weekly_summary_bypasses_cache
    (rt : Runtime) (userId : string) (proc : Trace) (s : State) :
  exists dt v a s',
    getWeeklySummary rt userId proc s = Some (a, s') /\
    deref s' a = v /\
    spawned_once s s' (garmin_spawn rt "get_weekly_summary" (user_params userId)) /\
    garminCache s' = garminCache (advance (now s + dt) s) /\
    timers s' = timers (advance (now s + dt) s) /\
    (forall w, spec_invoke rt 15000 proc = Ok w -> v = w) /\
    (forall k m, spec_invoke rt 15000 proc = Err k m ->
       forall rt' i t, v = getFallbackData rt' i t "get_weekly_summary").
Proof.
  destruct (getWeeklySummary_result rt userId proc s) as (dt & v & E & G).
  exists dt, v. do 2 eexists. split; [exact G |].
  split; [apply deref_last |].
  repeat split.
  - intros w Hw.
    pose proof (garmin_run_post rt "get_weekly_summary" (now s) (draws s) proc) as P.
    rewrite Hw in P. destruct P as [dt' P].
    unfold garmin_promise, callGarminDBService in E. cbn [fst] in E. congruence.
  - intros k m H rt' i t.
    destruct (garmin_failure_fallback rt "get_weekly_summary"
                (user_params userId) proc s k m H) as (dt' & j & E' & _).
    rewrite E' in E. now inversion E.
Qed.

(** ** X4: the status routes *)

(** X4.  [GET /garmin/status] and [GET /setup/garmindb-status] always
    answer 200.  When the status check fails (non-zero exit, unparsable
    output, timeout) the first answers [{error: 'Unknown action'}] and
    the second the same object with the five setup instructions added;
    when the program reports a status whose [connected] is true, both
    answer that status as it is. *)
Theorem status_routes_answer_200
    (rt : Runtime) (host : Host) (proc : Trace) (s : State) :
  (exists j s', status_route rt proc s = Some ({| status := 200; json := j |}, s')) /\
  (exists j s',
     setup_status_route rt host proc s = Some ({| status := 200; json := j |}, s')) /\
  (forall k m, spec_invoke rt 15000 proc = Err k m ->
     (exists s', status_route rt proc s =
                 Some ({| status := 200; json := unknown_action |}, s')) /\
     (exists s', setup_status_route rt host proc s =
                 Some ({| status := 200;
                          json := JObj [ ("error", JStr "Unknown action");
                                         ("setup_instructions", setup_instructions) ] |},
                       s'))) /\
  (forall v c, spec_invoke rt 15000 proc = Ok v ->
     get_prop "connected" v = Some c -> truthy c = true ->
     exists s', status_route rt proc s =
                  Some ({| status := 200; json := v |}, s') /\
                setup_status_route rt host proc s =
                  Some ({| status := 200; json := v |}, s')).
Proof.
  destruct (checkGarminDBStatus_result rt proc s) as (dt & v & E & G).
  unfold status_route, setup_status_route. rewrite G.
  rewrite deref_last.
  repeat apply conj.
  - eauto.
  - destruct (get_prop "connected" v); eauto.
  - intros k m H.
    destruct (garmin_failure_fallback rt "check_status" (JObj []) proc s k m H)
      as (dt' & i & E' & _).
    rewrite E' in E. inversion E; subst dt' v; clear E.
    split; [eexists; reflexivity |].
    eexists. cbn. unfold deref. cbn [heap set_heap].
    rewrite list_lookup_insert_eq by (rewrite length_app; simpl; lia).
    reflexivity.
  - intros w c Hw Hc Ht.
    pose proof (garmin_run_post rt "check_status" (now s) (draws s) proc) as P.
    rewrite Hw in P. destruct P as [dt' P].
    unfold garmin_promise, callGarminDBService in E. cbn [fst] in E.
    rewrite P in E. inversion E; subst dt' v; clear E.
    rewrite Hc, Ht. cbn [negb]. rewrite deref_last. eauto.
Qed.

Lemma status_routes_answer_200_witness :
  exists s', setup_status_route Node.runtime
               {| NODE_ENV := None; typeError_message := fun _ _ => "TypeError" |}
               crashing (boot Node.new_year_2026) =
             Some ({| status := 200;
                      json := JObj [ ("error", JStr "Unknown action");
                                     ("setup_instructions", setup_instructions) ] |},
                   s').
Proof.
  refine (proj2 (proj1 (proj2 (proj2
    (status_routes_answer_200 Node.runtime _ crashing (boot Node.new_year_2026))))
    NonZeroExit "boom" _)).
  reflexivity.
Defined.

(** ** X5: the development sync route *)

(** X5.  [POST /dev/trigger-sync] answers 403 in production and then
    changes nothing: no process is spawned and the cache is untouched.
    Otherwise it answers 200 and has on the server exactly the effect of
    [POST /garmin/sync] for the same request, its body wrapping the body
    of that route. *)
Theorem trigger_sync_is_guarded
    (rt : Runtime) (host : Host) (req : Request) (proc : Trace) (s : State) :
  (in_production host = true ->
   dev_trigger_sync_route rt host req proc s =
   Some ({| status := 403;
            json := JObj [("error", JStr "Not available in production")] |}, s)) /\
  (in_production host = false ->
   exists j s',
     sync_route rt req proc s = Some ({| status := 200; json := j |}, s') /\
     dev_trigger_sync_route rt host req proc s =
     Some ({| status := 200;
              json := JObj [("message", JStr "Sync triggered"); ("result", j)] |},
           s')).
Proof.
  unfold dev_trigger_sync_route, sync_route. split; intros ->; [reflexivity |].
  destruct (syncGarminData_result rt (userId_of req) proc s) as (dt & v & _ & G).
  rewrite G. eauto.
Qed.

Lemma trigger_sync_is_guarded_witness :
  dev_trigger_sync_route Node.runtime
    {| NODE_ENV := Some "production"; typeError_message := fun _ _ => "TypeError" |}
    analyze_request synced (boot Node.new_year_2026) =
  Some ({| status := 403;
           json := JObj [("error", JStr "Not available in production")] |},
        boot Node.new_year_2026).
Proof.
  apply (proj1 (trigger_sync_is_guarded Node.runtime _ analyze_request synced
                  (boot Node.new_year_2026))).
  reflexivity.
Defined.

(** ** X6, X7: what invalidation removes, and the read after it *)

Section InvalidationFacts.
Context (rt : Runtime).

Lemma advance_lookup_sub t s k a :
  garminCache (advance t s) !! k = Some a -> garminCache s !! k = Some a.
Proof. intros H. simpl in H. now apply expire_lookup_Some in H. Qed.

Lemma cache_hit_absent k s : garminCache s !! k = None -> cache_hit k s = None.
Proof. unfold cache_hit. now intros ->. Qed.

Lemma getLatestMetrics_spawns userId proc s :
  cache_hit (cacheKey_of rt userId (now s)) s = None ->
  exists a s', getLatestMetrics rt userId proc s = Some (a, s') /\
    spawned_once s s' (garmin_spawn rt "get_latest_metrics" (user_params userId)).
Proof.
  intros Hmiss.
  destruct (getLatestMetrics_miss rt userId proc s Hmiss) as (dt & v & _ & G).
  rewrite G. do 2 eexists. split; reflexivity.
Qed.

End InvalidationFacts.

(** X6.  After [syncGarminData(userId)], successful or not, the cache is
    what the event loop left of it without every entry whose key
    contains [userId]: no entry of that user is left, for any date, an
    entry whose key does not contain [userId] is kept, and the pending
    deletions are not cancelled. *)
Theorem sync_removes_keys_containing_user
    (rt : Runtime) (userId : string) (proc : Trace) (s : State) r s' :
  syncGarminData rt userId proc s = Some (r, s') ->
  exists dt,
    (forall k, garminCache s' !! k =
               if includes userId k then None
               else garminCache (advance (now s + dt) s) !! k) /\
    (forall t, garminCache s' !! cacheKey_of rt userId t = None) /\
    timers s' = timers (advance (now s + dt) s).
Proof.
  intros H. destruct (syncGarminData_result rt userId proc s) as (dt & v & _ & G).
  rewrite G in H.
  match type of H with
  | Some ?x = _ => assert (Es : s' = snd x) by (now inversion H)
  end.
  cbn [snd] in Es. subst s'. exists dt.
  assert (L : forall k,
            garminCache (clear_cache userId
              (set_heap (heap s ++ [v])
                 (resumed (garmin_promise rt "sync_data" (user_params userId) proc s)
                    dt (garmin_spawned rt "sync_data" (user_params userId) proc s))))
            !! k =
            if includes userId k then None
            else garminCache (advance (now s + dt) s) !! k)
    by (intros k; now rewrite clear_cache_lookup).
  repeat split.
  - exact L.
  - intros t. rewrite L. now rewrite cacheKey_includes.
Qed.

Lemma sync_removes_keys_containing_user_witness :
  let s1 := snd (default (0%nat, boot 0)
                   (getLatestMetrics Node.runtime "u1" healthy
                      (boot Node.new_year_2026))) in
  let o := default (0%nat, boot 0) (syncGarminData Node.runtime "u1" synced s1) in
  exists dt,
    (forall k, garminCache (snd o) !! k =
               if includes "u1" k then None
               else garminCache (advance (now s1 + dt) s1) !! k) /\
    (forall t, garminCache (snd o) !! cacheKey_of Node.runtime "u1" t = None) /\
    timers (snd o) = timers (advance (now s1 + dt) s1).
Proof.
  intros s1 o.
  apply (sync_removes_keys_containing_user Node.runtime "u1" synced s1
           (fst o) (snd o)).
  vm_compute. reflexivity.
Defined.

(** X7.  After [syncGarminData(userId)] has returned, if nothing but
    timer callbacks runs between the start of that sync and the next
    [getLatestMetrics] of that user (no other request is served in
    between and none is still awaiting its bridge), that call, at
    whatever later moment, misses the cache and spawns the metrics
    program.  A [getLatestMetrics] that was awaiting its bridge while
    the sync cleared the cache stores its snapshot afterwards; that
    overlap is outside the statement. *)
Theorem sync_forces_live_read
    (rt : Runtime) (userId : string) (proc proc' : Trace) (s : State) r s1 t :
  syncGarminData rt userId proc s = Some (r, s1) ->
  cache_hit (cacheKey_of rt userId t) (advance t s1) = None /\
  exists a s2,
    getLatestMetrics rt userId proc' (advance t s1) = Some (a, s2) /\
    spawned_once (advance t s1) s2
      (garmin_spawn rt "get_latest_metrics" (user_params userId)).
Proof.
  intros H.
  assert (M : cache_hit (cacheKey_of rt userId t) (advance t s1) = None).
  { apply cache_hit_absent.
    destruct (garminCache (advance t s1) !! cacheKey_of rt userId t) as [a |] eqn:L;
      [| reflexivity].
    apply advance_lookup_sub in L.
    destruct (syncGarminData_cache rt userId proc s r s1 H) as [t' C].
    rewrite C, cacheKey_includes in L. discriminate. }
  split; [exact M |]. now apply getLatestMetrics_spawns.
Qed.

Lemma sync_forces_live_read_witness :
  let s1 := snd (default (0%nat, boot 0)
                   (getLatestMetrics Node.runtime "u1" healthy
                      (boot Node.new_year_2026))) in
  let o := default (0%nat, boot 0) (syncGarminData Node.runtime "u1" crashing s1) in
  cache_hit (cacheKey_of Node.runtime "u1" (now (snd o) + 1000))
            (advance (now (snd o) + 1000) (snd o)) = None.
Proof.
  intros s1 o.
  refine (proj1 (sync_forces_live_read Node.runtime "u1" crashing healthy s1
                   (fst o) (snd o) (now (snd o) + 1000) _)).
  vm_compute. reflexivity.
Defined.

(** ** X8 to X12: the routes on the cache and on the agent *)

Section RouteFacts.
Context (rt : Runtime).

Lemma deref_allocated (s : State) (a : nat) :
  deref s a <> JUndefined -> (a < length (heap s))%nat.
Proof.
  unfold deref. intros H. destruct (heap s !! a) as [v |] eqn:L.
  - now apply lookup_lt_Some in L.
  - now contradiction H.
Qed.

Lemma deref_insert (s : State) (a : nat) (v : JValue) :
  (a < length (heap s))%nat -> deref (set_heap (<[a := v]> (heap s)) s) a = v.
Proof. intros H. unfold deref. simpl. now rewrite list_lookup_insert_eq. Qed.

(** What a miss of [getLatestMetrics] returns, again: the address and
    the state, from the promise. *)
Lemma getLatestMetrics_miss_inv userId proc s a s1 :
  let key := cacheKey_of rt userId (now s) in
  let p := garmin_promise rt "get_latest_metrics" (user_params userId) proc s in
  let s0 := garmin_spawned rt "get_latest_metrics" (user_params userId) proc s in
  cache_hit key s = None ->
  getLatestMetrics rt userId proc s = Some (a, s1) ->
  exists dt v,
    settled p = Some (dt, Resolved v) /\
    a = length (heap s) /\
    s1 = setTimeout 1800000 key
           (set_cache (<[key := a]> (garminCache (resumed p dt s0)))
              (set_heap (heap s ++ [v]) (resumed p dt s0))).
Proof.
  intros key p s0 Hmiss H.
  destruct (getLatestMetrics_miss rt userId proc s Hmiss) as (dt & v & E & G).
  exists dt, v. split; [exact E |].
  fold key p s0 in G. rewrite G in H.
  match type of H with
  | Some ?x = _ =>
      assert (Ea : a = fst x) by (now inversion H);
      assert (Es : s1 = snd x) by (now inversion H)
  end.
  cbn [fst snd cache_metrics] in Ea, Es. subst a. split; [reflexivity |].
  exact Es.
Qed.



End RouteFacts.

Lemma latest_metrics_route_shape
    (rt : Runtime) (req : Request) (proc : Trace) (s : State) :
  exists a s1 resp s',
    getLatestMetrics rt (userId_of req) proc s = Some (a, s1) /\
    latest_metrics_route rt req proc s = Some (resp, s') /\
    match deref s1 a with
    | JNull | JUndefined =>
        status resp = 500 /\ garminCache s' = garminCache s1 /\ heap s' = heap s1
    | v =>
        status resp = 200 /\
        json resp =
          (if is_fallback (default JUndefined (get_prop "dataSource" v))
           then set_prop "demoNotice" demoNotice v else v) /\
        deref s' a = json resp /\
        garminCache s' = garminCache s1
    end.
Proof.
  destruct (getLatestMetrics_returns rt (userId_of req) proc s) as (a & s1 & G).
  exists a, s1. unfold latest_metrics_route. rewrite G.
  destruct (deref s1 a) as [| | b | n | x | items | fields | name] eqn:D;
    cbn [get_prop default];
    try (do 2 eexists; split; [reflexivity |]; cbn [status json is_fallback];
         repeat split; try reflexivity; exact D).
  destruct (is_fallback (obj_get "dataSource" fields)) eqn:F.
  - do 2 eexists. split; [reflexivity |]. cbn [status json].
    assert (A : (a < length (heap s1))%nat)
      by (apply deref_allocated; rewrite D; discriminate).
    unfold default, from_option, id. rewrite F.
    rewrite !deref_insert by exact A. repeat split; reflexivity.
  - do 2 eexists. split; [reflexivity |]. cbn [status json].
    unfold default, from_option, id. rewrite F.
    repeat split; try reflexivity; exact D.
Qed.


(** X8.  [GET /garmin/latest-metrics] answers 500 exactly when the
    snapshot it got is [null] or [undefined], which is what a metrics
    program printing [null] produces; in every other case it answers 200
    with the snapshot, to which [demoNotice] has been added exactly when
    its [dataSource] is ['fallback'], and the notice is written into the
    snapshot object itself. *)
Theorem latest_metrics_fails_only_on_null
    (rt : Runtime) (req : Request) (proc : Trace) (s : State) :
  exists a s1 resp s',
    getLatestMetrics rt (userId_of req) proc s = Some (a, s1) /\
    latest_metrics_route rt req proc s = Some (resp, s') /\
    match deref s1 a with
    | JNull | JUndefined =>
        status resp = 500 /\ garminCache s' = garminCache s1 /\ heap s' = heap s1
    | v =>
        status resp = 200 /\
        json resp =
          (if is_fallback (default JUndefined (get_prop "dataSource" v))
           then set_prop "demoNotice" demoNotice v else v) /\
        deref s' a = json resp /\
        garminCache s' = garminCache s1
    end.
Proof. apply latest_metrics_route_shape. Qed.









(** ** X13 to X15: what holds in every state the server reaches *)

Section SoundFacts.
Context (rt : Runtime) (host : Host).

Lemma sound_boot t : sound rt (boot t).
Proof.
  repeat split; intros k a H; simpl in H; now rewrite lookup_empty in H.
Qed.

Lemma sound_same s s' :
  garminCache s' = garminCache s -> timers s' = timers s -> now s' = now s ->
  (length (heap s) <= length (heap s'))%nat ->
  sound rt s -> sound rt s'.
Proof.
  intros Hc Ht Hn Hh (K & A & E). repeat split.
  - intros k a H. rewrite Hc in H. eauto.
  - intros k a H. rewrite Hc in H. specialize (A k a H). lia.
  - apply (evictable_same s); auto.
Qed.

Lemma sound_advance t s : now s <= t -> sound rt s -> sound rt (advance t s).
Proof.
  intros Ht (K & A & E). repeat split.
  - intros k a H. apply advance_lookup_sub in H. eauto.
  - intros k a H. apply advance_lookup_sub in H. exact (A k a H).
  - now apply evictable_advance.
Qed.

Lemma sound_cache_metrics userId t a s :
  (a < length (heap s))%nat -> sound rt s ->
  sound rt (snd (cache_metrics (cacheKey_of rt userId t) a s)).
Proof.
  intros Ha (K & A & E). repeat split.
  - intros k b H. simpl in H.
    destruct (decide (cacheKey_of rt userId t = k)) as [<- | Hne]; [eauto |].
    rewrite lookup_insert_ne in H by assumption. eauto.
  - intros k b H. simpl in *.
    destruct (decide (cacheKey_of rt userId t = k)) as [<- | Hne].
    + rewrite lookup_insert_eq in H. now inversion H; subst.
    + rewrite lookup_insert_ne in H by assumption. eauto.
  - now apply evictable_cache_metrics.
Qed.

Lemma sound_clear_cache userId s : sound rt s -> sound rt (clear_cache userId s).
Proof.
  intros (K & A & E). repeat split.
  - intros k a H. rewrite clear_cache_lookup in H.
    destruct (includes userId k); [discriminate | eauto].
  - intros k a H. rewrite clear_cache_lookup in H.
    destruct (includes userId k); [discriminate |]. exact (A k a H).
  - now apply evictable_clear_cache.
Qed.

Lemma sound_await p s x s' :
  settled_after_spawn p -> sound rt s -> await p s = Some (x, s') ->
  sound rt s' /\ (length (heap s) <= length (heap s'))%nat.
Proof.
  unfold await, settled_after_spawn. intros Hp Hs H.
  destruct (settled p) as [[dt o] |]; [| discriminate].
  assert (R : sound rt (resumed p dt s)).
  { apply (sound_same (advance (now s + dt) s)); try reflexivity.
    apply sound_advance; [lia | exact Hs]. }
  destruct o as [v | m].
  - inversion H; subst; clear H. split.
    + apply (sound_same (resumed p dt s)); try reflexivity; [| exact R].
      simpl. rewrite length_app. lia.
    + simpl. rewrite length_app. lia.
  - inversion H; subst; clear H. split; [exact R | reflexivity].
Qed.

Lemma sound_spawn p s : sound rt s -> sound rt (spawn p s).
Proof. apply sound_same; reflexivity. Qed.

Lemma sound_console line s : sound rt s -> sound rt (console_error line s).
Proof. apply sound_same; reflexivity. Qed.

Lemma sound_fallback_now action s :
  sound rt s -> sound rt (snd (fallback_now rt action s)).
Proof.
  apply sound_same; try reflexivity. simpl. rewrite length_app. lia.
Qed.

Lemma sound_set_heap_insert a v s :
  sound rt s -> sound rt (set_heap (<[a := v]> (heap s)) s).
Proof. apply sound_same; try reflexivity. simpl. now rewrite length_insert. Qed.

Lemma garmin_promise_after_spawn action params proc s :
  causal proc -> settled_after_spawn (garmin_promise rt action params proc s).
Proof. apply garmin_run_after_spawn. Qed.

Lemma agent_promise_after_spawn requestType data message proc s :
  causal proc ->
  settled_after_spawn (fst (callAgent rt requestType data message proc s)).
Proof. intros Hc. now apply (agent_run_facts rt proc). Qed.

Lemma sound_getLatestMetrics userId proc s a s' :
  causal proc -> sound rt s ->
  getLatestMetrics rt userId proc s = Some (a, s') -> sound rt s'.
Proof.
  intros Hc Hs H.
  destruct (cache_hit (cacheKey_of rt userId (now s)) s) as [b |] eqn:Hit.
  - rewrite (getLatestMetrics_hit rt userId proc s b Hit) in H.
    now inversion H; subst.
  - destruct (getLatestMetrics_miss rt userId proc s Hit) as (dt & v & E & G).
    pose proof (garmin_promise_after_spawn "get_latest_metrics"
                  (user_params userId) proc s Hc) as N.
    unfold settled_after_spawn in N. rewrite E in N.
    rewrite G in H.
    match type of H with
    | Some ?x = _ => assert (Es : s' = snd x) by (now inversion H)
    end.
    rewrite Es. apply sound_cache_metrics.
    + simpl. rewrite length_app. simpl. lia.
    + apply (sound_same (advance (now s + dt) s)); try reflexivity.
      * simpl. rewrite length_app. lia.
      * apply sound_advance; [lia | exact Hs].
Qed.

Lemma sound_syncGarminData userId proc s r s' :
  causal proc -> sound rt s ->
  syncGarminData rt userId proc s = Some (r, s') -> sound rt s'.
Proof.
  intros Hc Hs H.
  destruct (syncGarminData_result rt userId proc s) as (dt & v & E & G).
  pose proof (garmin_promise_after_spawn "sync_data" (user_params userId) proc s Hc)
    as N.
  unfold settled_after_spawn in N. rewrite E in N.
  rewrite G in H.
  match type of H with
  | Some ?x = _ => assert (Es : s' = snd x) by (now inversion H)
  end.
  rewrite Es. cbn [snd]. apply sound_clear_cache.
  apply (sound_same (advance (now s + dt) s)); try reflexivity.
  - simpl. rewrite length_app. lia.
  - apply sound_advance; [lia | exact Hs].
Qed.

Lemma sound_getWeeklySummary userId proc s r s' :
  causal proc -> sound rt s ->
  getWeeklySummary rt userId proc s = Some (r, s') -> sound rt s'.
Proof.
  intros Hc Hs H.
  destruct (getWeeklySummary_result rt userId proc s) as (dt & v & E & G).
  pose proof (garmin_promise_after_spawn "get_weekly_summary"
                (user_params userId) proc s Hc) as N.
  unfold settled_after_spawn in N. rewrite E in N.
  rewrite G in H.
  match type of H with
  | Some ?x = _ => assert (Es : s' = snd x) by (now inversion H)
  end.
  rewrite Es. cbn [snd].
  apply (sound_same (advance (now s + dt) s)); try reflexivity.
  - simpl. rewrite length_app. lia.
  - apply sound_advance; [lia | exact Hs].
Qed.

Lemma sound_checkGarminDBStatus proc s r s' :
  causal proc -> sound rt s ->
  checkGarminDBStatus rt proc s = Some (r, s') -> sound rt s'.
Proof.
  intros Hc Hs H.
  destruct (checkGarminDBStatus_result rt proc s) as (dt & v & E & G).
  pose proof (garmin_promise_after_spawn "check_status" (JObj []) proc s Hc) as N.
  unfold settled_after_spawn in N. rewrite E in N.
  rewrite G in H.
  match type of H with
  | Some ?x = _ => assert (Es : s' = snd x) by (now inversion H)
  end.
  rewrite Es. cbn [snd].
  apply (sound_same (advance (now s + dt) s)); try reflexivity.
  - simpl. rewrite length_app. lia.
  - apply sound_advance; [lia | exact Hs].
Qed.

Lemma sound_await_agent requestType data message proc s x s' :
  causal proc -> sound rt s ->
  await (fst (callAgent rt requestType data message proc s))
        (snd (callAgent rt requestType data message proc s)) = Some (x, s') ->
  sound rt s'.
Proof.
  intros Hc Hs H.
  eapply sound_await; [| | exact H].
  - now apply agent_promise_after_spawn.
  - unfold callAgent. cbn [snd]. now apply sound_spawn.
Qed.

Lemma sound_serve r s resp s' :
  causal_inbound r -> sound rt s ->
  serve rt host r s = Some (resp, s') -> sound rt s'.
Proof.
  intros Hc Hs H. destruct r as [req proc | req proc | proc | req proc
                                 | req proc | req mproc aproc | proc | req proc];
    simpl in Hc, H.
  - unfold latest_metrics_route in H.
    destruct (getLatestMetrics rt (userId_of req) proc s) as [[a s1] |] eqn:G;
      [| discriminate].
    apply sound_getLatestMetrics in G; auto.
    destruct (get_prop "dataSource" (deref s1 a)) as [ds |].
    + inversion H; subst; clear H.
      destruct (is_fallback ds); [now apply sound_set_heap_insert | exact G].
    + inversion H; subst; clear H. now apply sound_console.
  - unfold sync_route in H.
    destruct (syncGarminData rt (userId_of req) proc s) as [[a s1] |] eqn:G;
      [| discriminate].
    inversion H; subst; clear H. eapply sound_syncGarminData; eauto.
  - unfold status_route in H.
    destruct (checkGarminDBStatus rt proc s) as [[a s1] |] eqn:G; [| discriminate].
    inversion H; subst; clear H. eapply sound_checkGarminDBStatus; eauto.
  - unfold weekly_summary_route in H.
    destruct (getWeeklySummary rt (userId_of req) proc s) as [[a s1] |] eqn:G;
      [| discriminate].
    inversion H; subst; clear H. eapply sound_getWeeklySummary; eauto.
  - unfold analyze_route in H.
    destruct (get_prop "request_type" (body req)) as [rq |];
      [| inversion H; subst; now apply sound_console].
    destruct (get_prop "data" (body req)) as [d |];
      [| inversion H; subst; now apply sound_console].
    pose proof (sound_await_agent rq d JUndefined proc s) as W.
    destruct (callAgent rt rq d JUndefined proc s) as [p s1]. cbn [fst snd] in W.
    destruct (await p s1) as [[[x | m] s2] |] eqn:A; [| | discriminate].
    + inversion H; subst; clear H. eapply W; eauto.
    + inversion H; subst; clear H. apply sound_console. eapply W; eauto.
  - destruct Hc as [Hm Ha]. unfold chat_route in H.
    destruct (get_prop "message" (body req)) as [msg |];
      [| inversion H; subst; now apply sound_console].
    destruct (get_prop "conversation_history" (body req)) as [hist |];
      [| inversion H; subst; now apply sound_console].
    destruct (getLatestMetrics rt (userId_of req) mproc s) as [[a s1] |] eqn:G;
      [| discriminate].
    apply sound_getLatestMetrics in G; auto.
    pose proof (sound_await_agent (JStr "chat") (deref s1 a) msg aproc s1) as W.
    destruct (callAgent rt (JStr "chat") (deref s1 a) msg aproc s1) as [p s2].
    cbn [fst snd] in W.
    destruct (await p s2) as [[[x | m] s3] |] eqn:A; [| | discriminate].
    + inversion H; subst; clear H. eapply W; eauto.
    + inversion H; subst; clear H. apply sound_console. eapply W; eauto.
  - unfold setup_status_route in H.
    destruct (checkGarminDBStatus rt proc s) as [[a s1] |] eqn:G; [| discriminate].
    apply sound_checkGarminDBStatus in G; auto.
    destruct (get_prop "connected" (deref s1 a)) as [c |].
    + inversion H; subst; clear H.
      destruct (negb (truthy c)); [now apply sound_set_heap_insert | exact G].
    + now inversion H; subst.
  - unfold dev_trigger_sync_route in H. destruct (in_production host).
    + now inversion H; subst.
    + destruct (syncGarminData rt (userId_of req) proc s) as [[a s1] |] eqn:G;
        [| discriminate].
      inversion H; subst; clear H. eapply sound_syncGarminData; eauto.
Qed.

Lemma sound_history hs : forall s s',
  plausible rt host hs s -> sound rt s ->
  history rt host hs s = Some s' -> sound rt s'.
Proof.
  induction hs as [| h hs IH]; intros s s' Hp Hs H; simpl in *.
  - now inversion H; subst.
  - destruct Hp as [Hh Hp].
    destruct (happen rt host h s) as [s1 |] eqn:E; [| discriminate].
    simpl in H. apply (IH s1 s' Hp); [| exact H].
    destruct h as [t | r]; simpl in E.
    + inversion E; subst. now apply sound_advance.
    + destruct (serve rt host r s) as [[resp s2] |] eqn:S; [| discriminate].
      simpl in E. inversion E; subst. eapply sound_serve; eauto.
Qed.

Lemma cacheKey_not_inherited userId t : inherited (cacheKey_of rt userId t) = false.
Proof. reflexivity. Qed.

End SoundFacts.

(** X13.  Whatever requests the server has served and however much time
    has passed since it started, every key in the cache is the key
    [metrics_<userId>_<date>] of some user on some date; in particular
    no key is the name of a property that [garminCache] inherits from
    [Object.prototype], so a lookup finds only what the server stored. *)
Theorem cache_keys_are_metrics_keys
    (rt : Runtime) (host : Host) (hs : list Happening) (t0 : Z) (s : State) :
  plausible rt host hs (boot t0) ->
  history rt host hs (boot t0) = Some s ->
  forall k a, garminCache s !! k = Some a ->
    (exists userId t, k = cacheKey_of rt userId t) /\ inherited k = false.
Proof.
  intros Hp H k a L.
  destruct (sound_history rt host hs (boot t0) s Hp (sound_boot rt t0) H)
    as (K & _ & _).
  destruct (K k a L) as (u & t & ->).
  split; [eauto | apply cacheKey_not_inherited].
Qed.

(** X14.  In every state the server reaches, every address in the cache
    is the address of an object that exists: [garminCache[key]] is never
    a dangling reference. *)
Theorem cached_objects_exist
    (rt : Runtime) (host : Host) (hs : list Happening) (t0 : Z) (s : State) :
  plausible rt host hs (boot t0) ->
  history rt host hs (boot t0) = Some s ->
  forall k a, garminCache s !! k = Some a ->
    exists v, heap s !! a = Some v /\ deref s a = v.
Proof.
  intros Hp H k a L.
  destruct (sound_history rt host hs (boot t0) s Hp (sound_boot rt t0) H)
    as (_ & A & _).
  destruct (lookup_lt_is_Some_2 (heap s) a (A k a L)) as [v Hv].
  exists v. split; [exact Hv |]. unfold deref. now rewrite Hv.
Qed.

(** X15.  In every state the server reaches, every key in the cache has
    a pending deletion that is due within the next 30 minutes, and once
    the event loop has reached that time the key is gone. *)
Theorem cached_entries_expire
    (rt : Runtime) (host : Host) (hs : list Happening) (t0 : Z) (s : State) :
  plausible rt host hs (boot t0) ->
  history rt host hs (boot t0) = Some s ->
  forall k a, garminCache s !! k = Some a ->
    exists d, In (d, k) (timers s) /\ d <= now s + TTL /\
              forall t, d <= t -> garminCache (advance t s) !! k = None.
Proof.
  intros Hp H k a L.
  destruct (sound_history rt host hs (boot t0) s Hp (sound_boot rt t0) H)
    as (_ & _ & E).
  destruct (E k a L) as (d & Hin & Hd).
  exists d. repeat split; auto. intros t Ht. eapply advance_fired; eauto.
Qed.

Lemma plausible_morning :
  plausible Node.runtime localhost morning (boot Node.new_year_2026).
Proof.
  vm_compute. repeat split; try discriminate; repeat constructor; discriminate.
Qed.

Lemma history_morning :
  exists s, history Node.runtime localhost morning (boot Node.new_year_2026) = Some s.
Proof. eexists. vm_compute. reflexivity. Qed.

Lemma cache_keys_are_metrics_keys_witness :
  exists s,
    history Node.runtime localhost morning (boot Node.new_year_2026) = Some s /\
    forall k a, garminCache s !! k = Some a ->
      (exists userId t, k = cacheKey_of Node.runtime userId t) /\
      inherited k = false.
Proof.
  destruct history_morning as [s H]. exists s. split; [exact H |].
  exact (cache_keys_are_metrics_keys Node.runtime localhost morning
           Node.new_year_2026 s plausible_morning H).
Defined.

Lemma cached_objects_exist_witness :
  exists s,
    history Node.runtime localhost morning (boot Node.new_year_2026) = Some s /\
    forall k a, garminCache s !! k = Some a ->
      exists v, heap s !! a = Some v /\ deref s a = v.
Proof.
  destruct history_morning as [s H]. exists s. split; [exact H |].
  exact (cached_objects_exist Node.runtime localhost morning
           Node.new_year_2026 s plausible_morning H).
Defined.

Lemma cached_entries_expire_witness :
  exists s,
    history Node.runtime localhost morning (boot Node.new_year_2026) = Some s /\
    forall k a, garminCache s !! k = Some a ->
      exists d, In (d, k) (timers s) /\ d <= now s + TTL /\
                forall t, d <= t -> garminCache (advance t s) !! k = None.
Proof.
  destruct history_morning as [s H]. exists s. split; [exact H |].
  exact (cached_entries_expire Node.runtime localhost morning
           Node.new_year_2026 s plausible_morning H).
Defined.

(** ** X16: a deletion scheduled by an earlier write *)

(** X16.  The callback that [getLatestMetrics] schedules deletes by key.
    If a deletion of the key is still pending from an earlier write when
    a new snapshot is stored under it, the new entry is deleted when the
    older callback is due, which is before the 30 minutes of the new
    entry are over. *)
Theorem earlier_deletion_removes_later_entry
    (rt : Runtime) (userId : string) (proc : Trace) (s s1 : State) (a : nat)
    (d : Z) :
  let key := cacheKey_of rt userId (now s) in
  cache_hit key s = None ->
  In (d, key) (timers s) ->
  getLatestMetrics rt userId proc s = Some (a, s1) ->
  now s1 < d ->
  garminCache s1 !! key = Some a /\
  In (now s1 + TTL, key) (timers s1) /\
  In (d, key) (timers s1) /\
  garminCache (advance d s1) !! key = None.
Proof.
  intros key Hmiss Hin Hget Hd.
  destruct (getLatestMetrics_miss_inv rt userId proc s a s1 Hmiss Hget)
    as (dt & v & E & Ea & Es).
  fold key in Es.
  assert (N : now s1 = now s + dt) by (rewrite Es; reflexivity).
  assert (T : In (d, key) (timers s1)).
  { rewrite Es. simpl. apply in_or_app. left.
    apply list_elem_of_In, list_elem_of_filter. split.
    - unfold due. simpl. lia.
    - now apply list_elem_of_In. }
  repeat split.
  - rewrite Es. simpl. apply lookup_insert_eq.
  - rewrite Es. simpl. apply in_or_app. right. now left.
  - exact T.
  - eapply advance_fired; [exact T | lia].
Qed.

Lemma earlier_deletion_removes_later_entry_witness :
  let key := cacheKey_of Node.runtime "demo-user" (now after_sync) in
  let o := default (0%nat, boot 0)
             (getLatestMetrics Node.runtime "demo-user" healthy after_sync) in
  let d := Node.new_year_2026 + 120 + TTL in
  d < now (snd o) + TTL /\
  garminCache (snd o) !! key = Some (fst o) /\
  In (now (snd o) + TTL, key) (timers (snd o)) /\
  In (d, key) (timers (snd o)) /\
  garminCache (advance d (snd o)) !! key = None.
Proof.
  intros key o d. split; [reflexivity |].
  apply (earlier_deletion_removes_later_entry Node.runtime "demo-user" healthy
           after_sync (snd o) (fst o) d).
  - reflexivity.
  - left. reflexivity.
  - reflexivity.
  - reflexivity.
Defined.

(** ** X17: users do not share entries *)

Lemma length_append (a b : string) :
  String.length (a +:+ b) = (String.length a + String.length b)%nat.
Proof.
  induction a as [| ch a IH]; [reflexivity |].
  rewrite append_cons. simpl. now rewrite IH.
Qed.

Lemma append_cancel_r (a b c : string) : a +:+ c = b +:+ c -> a = b.
Proof.
  revert b. induction a as [| ch a IH]; intros [| ch' b] H.
  - reflexivity.
  - apply (f_equal String.length) in H. rewrite append_nil, append_cons in H.
    simpl in H. rewrite length_append in H. lia.
  - apply (f_equal String.length) in H. rewrite append_nil, append_cons in H.
    simpl in H. rewrite length_append in H. lia.
  - rewrite !append_cons in H. inversion H; subst. f_equal. now apply IH.
Qed.

Lemma cacheKey_inj (rt : Runtime) u1 u2 t1 t2 :
  toDateString rt t1 = toDateString rt t2 ->
  cacheKey_of rt u1 t1 = cacheKey_of rt u2 t2 -> u1 = u2.
Proof.
  unfold cacheKey_of. intros -> H.
  apply (inj (String.app "metrics_")) in H.
  now apply append_cancel_r in H.
Qed.

(** X17.  The keys of two different users on the same date are
    different, so a snapshot fetched for one user is never served to
    another: after [getLatestMetrics] for [u1], a lookup for another
    user [u2] on that date finds what it found before, or nothing if the
    entry was deleted meanwhile. *)
Theorem users_do_not_share_entries
    (rt : Runtime) (u1 u2 : string) (proc : Trace) (s s1 : State) (a : nat)
    (t : Z) :
  u1 <> u2 ->
  toDateString rt t = toDateString rt (now s) ->
  getLatestMetrics rt u1 proc s = Some (a, s1) ->
  cacheKey_of rt u2 t <> cacheKey_of rt u1 (now s) /\
  forall b, garminCache s1 !! cacheKey_of rt u2 t = Some b ->
            garminCache s !! cacheKey_of rt u2 t = Some b.
Proof.
  intros Hne Hd Hget.
  assert (K : cacheKey_of rt u2 t <> cacheKey_of rt u1 (now s))
    by (intros E; apply Hne; symmetry; eapply cacheKey_inj; eauto).
  split; [exact K |]. intros b L.
  destruct (cache_hit (cacheKey_of rt u1 (now s)) s) as [c |] eqn:Hit.
  - rewrite (getLatestMetrics_hit rt u1 proc s c Hit) in Hget.
    now inversion Hget; subst.
  - destruct (getLatestMetrics_miss_inv rt u1 proc s a s1 Hit Hget)
      as (dt & v & _ & _ & Es).
    rewrite Es in L. simpl in L.
    rewrite lookup_insert_ne in L by (intros E; apply K; now symmetry).
    now apply expire_lookup_Some in L.
Qed.

Lemma users_do_not_share_entries_witness :
  let o := default (0%nat, boot 0)
             (getLatestMetrics Node.runtime "u1" healthy (boot Node.new_year_2026)) in
  cacheKey_of Node.runtime "u10" Node.new_year_2026 <>
  cacheKey_of Node.runtime "u1" (now (boot Node.new_year_2026)) /\
  forall b,
    garminCache (snd o) !! cacheKey_of Node.runtime "u10" Node.new_year_2026 = Some b ->
    garminCache (boot Node.new_year_2026)
      !! cacheKey_of Node.runtime "u10" Node.new_year_2026 = Some b.
Proof.
  intros o.
  apply (users_do_not_share_entries Node.runtime "u1" "u10" healthy
           (boot Node.new_year_2026) (snd o) (fst o) Node.new_year_2026).
  - discriminate.
  - reflexivity.
  - reflexivity.
Defined.

(** ** X18: every handler answers, in bounded time *)

Section AnswerFacts.
Context (rt : Runtime) (host : Host).

Lemma callAgent_settles requestType data message proc s :
  exists dt o,
    settled (fst (callAgent rt requestType data message proc s)) = Some (dt, o) /\
    dt <= 30000 /\ (causal proc -> 0 <= dt).
Proof.
  pose proof (callAgent_post rt requestType data message proc s) as P.
  destruct (agent_run_facts rt proc) as (B & A & _). cbv zeta in *.
  unfold callAgent in *. cbn [fst] in *.
  destruct (settled (run_process 30000 agent_on_timeout (agent_on_event rt) proc))
    as [[dt o] |] eqn:E.
  - exists dt, o. unfold settled_by in B. rewrite E in B.
    repeat split; auto. intros Hc. specialize (A Hc).
    unfold settled_after_spawn in A. now rewrite E in A.
  - exfalso. destruct (spec_invoke rt 30000 proc) as [v | [] m]; simpl in P;
      rewrite E in P;
      first [discriminate P | destruct P as [dt P]; discriminate P].
Qed.

Lemma await_agent_total requestType data message proc s :
  exists x s' dt,
    await (fst (callAgent rt requestType data message proc s))
          (snd (callAgent rt requestType data message proc s)) = Some (x, s') /\
    now s' = now s + dt /\ dt <= 30000 /\ (causal proc -> 0 <= dt).
Proof.
  destruct (callAgent_settles requestType data message proc s)
    as (dt & o & E & Hu & Hl).
  unfold await. rewrite E. destruct o as [v | m].
  - do 3 eexists. split; [reflexivity |]. repeat split; eauto.
  - do 3 eexists. split; [reflexivity |]. repeat split; eauto.
Qed.

Lemma getLatestMetrics_time userId proc s :
  exists a s', getLatestMetrics rt userId proc s = Some (a, s') /\
               (causal proc -> now s <= now s' <= now s + 15000).
Proof.
  destruct (cache_hit (cacheKey_of rt userId (now s)) s) as [b |] eqn:Hit.
  - rewrite (getLatestMetrics_hit rt userId proc s b Hit).
    do 2 eexists. split; [reflexivity | lia].
  - destruct (getLatestMetrics_miss rt userId proc s Hit) as (dt & v & E & G).
    apply garmin_promise_in_time in E as [Hu Hl].
    rewrite G. do 2 eexists. split; [reflexivity |]. intros Hc.
    specialize (Hl Hc). simpl. lia.
Qed.

Lemma syncGarminData_time userId proc s :
  exists r s', syncGarminData rt userId proc s = Some (r, s') /\
               (causal proc -> now s <= now s' <= now s + 15000).
Proof.
  destruct (syncGarminData_result rt userId proc s) as (dt & v & E & G).
  apply garmin_promise_in_time in E as [Hu Hl].
  rewrite G. do 2 eexists. split; [reflexivity |]. intros Hc.
  specialize (Hl Hc). simpl. lia.
Qed.

Lemma getWeeklySummary_time userId proc s :
  exists r s', getWeeklySummary rt userId proc s = Some (r, s') /\
               (causal proc -> now s <= now s' <= now s + 15000).
Proof.
  destruct (getWeeklySummary_result rt userId proc s) as (dt & v & E & G).
  apply garmin_promise_in_time in E as [Hu Hl].
  rewrite G. do 2 eexists. split; [reflexivity |]. intros Hc.
  specialize (Hl Hc). simpl. lia.
Qed.

Lemma checkGarminDBStatus_time proc s :
  exists r s', checkGarminDBStatus rt proc s = Some (r, s') /\
               (causal proc -> now s <= now s' <= now s + 15000).
Proof.
  destruct (checkGarminDBStatus_result rt proc s) as (dt & v & E & G).
  apply garmin_promise_in_time in E as [Hu Hl].
  rewrite G. do 2 eexists. split; [reflexivity |]. intros Hc.
  specialize (Hl Hc). simpl. lia.
Qed.

End AnswerFacts.

(** Every route returns a response, and in time. *)
Lemma serve_answers
    (rt : Runtime) (host : Host) (r : Inbound) (s : State) :
  exists resp s',
    serve rt host r s = Some (resp, s') /\
    In (status resp) [200; 403; 500] /\
    (causal_inbound r -> now s <= now s' <= now s + time_limit r).
Proof.
  destruct r as [req proc | req proc | proc | req proc
                 | req proc | req mproc aproc | proc | req proc];
    cbn [serve causal_inbound time_limit].
  - unfold latest_metrics_route.
    destruct (getLatestMetrics_time rt (userId_of req) proc s) as (a & s1 & G & T).
    rewrite G. destruct (get_prop "dataSource" (deref s1 a)) as [ds |].
    + do 2 eexists. split; [reflexivity |]. split; [simpl; auto |].
      destruct (is_fallback ds); exact T.
    + do 2 eexists. split; [reflexivity |]. split; [simpl; auto | exact T].
  - unfold sync_route.
    destruct (syncGarminData_time rt (userId_of req) proc s) as (a & s1 & G & T).
    rewrite G. do 2 eexists. split; [reflexivity |]. split; [simpl; auto | exact T].
  - unfold status_route.
    destruct (checkGarminDBStatus_time rt proc s) as (a & s1 & G & T).
    rewrite G. do 2 eexists. split; [reflexivity |]. split; [simpl; auto | exact T].
  - unfold weekly_summary_route.
    destruct (getWeeklySummary_time rt (userId_of req) proc s) as (a & s1 & G & T).
    rewrite G. do 2 eexists. split; [reflexivity |]. split; [simpl; auto | exact T].
  - unfold analyze_route.
    destruct (get_prop "request_type" (body req)) as [rq |];
      [| do 2 eexists; split; [reflexivity |]; split; [simpl; auto | simpl; lia]].
    destruct (get_prop "data" (body req)) as [d |];
      [| do 2 eexists; split; [reflexivity |]; split; [simpl; auto | simpl; lia]].
    destruct (await_agent_total rt rq d JUndefined proc s)
      as (x & s1 & dt & A & N & Hu & Hl).
    revert A N. unfold callAgent. cbn [fst snd]. intros -> N.
    destruct x as [a | m]; do 2 eexists; (split; [reflexivity |]);
      (split; [simpl; auto |]); intros Hc; specialize (Hl Hc);
      simpl in *; lia.
  - unfold chat_route.
    destruct (get_prop "message" (body req)) as [msg |];
      [| do 2 eexists; split; [reflexivity |]; split; [simpl; auto | simpl; lia]].
    destruct (get_prop "conversation_history" (body req)) as [hist |];
      [| do 2 eexists; split; [reflexivity |]; split; [simpl; auto | simpl; lia]].
    destruct (getLatestMetrics_time rt (userId_of req) mproc s) as (a & s1 & G & T).
    rewrite G.
    destruct (await_agent_total rt (JStr "chat") (deref s1 a) msg aproc s1)
      as (x & s2 & dt & A & N & Hu & Hl).
    revert A N. unfold callAgent. cbn [fst snd]. intros -> N.
    destruct x as [b | m]; do 2 eexists; (split; [reflexivity |]);
      (split; [simpl; auto |]); intros [Hm Ha]; specialize (Hl Ha);
      specialize (T Hm); simpl in *; lia.
  - unfold setup_status_route.
    destruct (checkGarminDBStatus_time rt proc s) as (a & s1 & G & T).
    rewrite G. destruct (get_prop "connected" (deref s1 a)) as [c |].
    + do 2 eexists. split; [reflexivity |]. split; [simpl; auto |].
      destruct (negb (truthy c)); exact T.
    + do 2 eexists. split; [reflexivity |]. split; [simpl; auto | exact T].
  - unfold dev_trigger_sync_route. destruct (in_production host).
    + do 2 eexists. split; [reflexivity |]. split; [simpl; auto | lia].
    + destruct (syncGarminData_time rt (userId_of req) proc s) as (a & s1 & G & T).
      rewrite G. do 2 eexists. split; [reflexivity |].
      split; [simpl; auto | exact T].
Qed.

(** X18.  Every request that reaches the handler of one of the eight
    data routes, [express.json()] having parsed its body, is answered by
    that handler: the handler returns a response, with status 200, 403
    or 500, and when the processes it spawns deliver their events after
    the spawn it does so within the time limit of the route: 15 s for
    the GarminDB routes, 30 s for [analyze] and 45 s for [chat].  (A
    request the middleware turns away is answered by the middleware, and
    is not covered.) *)
Theorem every_handler_answers
    (rt : Runtime) (host : Host) (r : Inbound) (s : State) :
  exists resp s',
    serve rt host r s = Some (resp, s') /\
    In (status resp) [200; 403; 500] /\
    (causal_inbound r -> now s <= now s' <= now s + time_limit r).
Proof. apply serve_answers. Qed.

(** ** The mobile client against the server *)

Section ClientFacts.
Context (rt : Runtime).

Lemma received_in_time bad s r s' :
  now s' - now s < Mobile.timeout ->
  Mobile.received bad s (Some (r, s')) = Mobile.settle_response bad r.
Proof.
  intros H. unfold Mobile.received.
  destruct (Z.leb_spec Mobile.timeout (now s' - now s)); [lia | reflexivity].
Qed.

Lemma received_failed bad s r s' :
  status r = 500 ->
  exists code, Mobile.received bad s (Some (r, s')) = Mobile.Failed code.
Proof.
  intros H. unfold Mobile.received, Mobile.settle_response. rewrite H.
  destruct (Mobile.timeout <=? now s' - now s)%Z; eauto.
Qed.

End ClientFacts.

(** X22.  The dashboard while the agent program fails: when the metrics
    request is answered 200 the dashboard shows the metrics it got, no
    error, and its own 'AI Coach Status' insight, not the insight list
    the server sends with its 500; when the metrics request is not
    answered 200 the dashboard keeps its metrics and insights, stores the
    error and raises one alert.  Either way it is neither loading nor
    refreshing afterwards. *)
Theorem dashboard_discards_server_insights
    (rt : Runtime) (bad : JValue) (mproc aproc : Trace) (s : State)
    (st : Mobile.Dashboard.State) k m :
  causal mproc ->
  spec_invoke rt 30000 aproc = Err k m ->
  let o := latest_metrics_route rt Mobile.api.getLatestMetrics mproc s in
  let s1 := default s (snd <$> o) in
  let st' := Mobile.Dashboard.loadDashboardData (Mobile.received bad s o)
               (fun req => Mobile.received bad s1 (analyze_route rt req aproc s1))
               st in
  exists resp,
    fst <$> o = Some resp /\
    (status resp = 200 ->
     Mobile.Dashboard.metrics st' = json resp /\
     Mobile.Dashboard.insights st' = Mobile.Dashboard.fallback_insights /\
     Mobile.Dashboard.error st' = None /\
     Mobile.Dashboard.alerts st' = Mobile.Dashboard.alerts st) /\
    (status resp <> 200 ->
     Mobile.Dashboard.metrics st' = Mobile.Dashboard.metrics st /\
     Mobile.Dashboard.insights st' = Mobile.Dashboard.insights st /\
     Mobile.Dashboard.error st' = Some bad /\
     length (Mobile.Dashboard.alerts st') =
       S (length (Mobile.Dashboard.alerts st))) /\
    Mobile.Dashboard.loading st' = false /\
    Mobile.Dashboard.refreshing st' = false /\
    Some Mobile.Dashboard.fallback_insights <>
      get_prop "insights" (json analyze_failure).
Proof.
  intros Hc H.
  destruct (serve_answers rt {| NODE_ENV := None;
                                typeError_message := fun _ _ => EmptyString |}
              (GetLatestMetrics Mobile.api.getLatestMetrics mproc) s)
    as (resp & s1 & R & St & T).
  cbn [serve causal_inbound time_limit] in R, T. specialize (T Hc).
  rewrite R. cbn [fmap option_fmap option_map default from_option snd fst id].
  rewrite received_in_time by (unfold Mobile.timeout; lia).
  exists resp. split; [reflexivity |].
  remember (fun req => Mobile.received bad s1 (analyze_route rt req aproc s1))
    as daily eqn:Ed.
  assert (F : forall req, exists code, daily req = Mobile.Failed code).
  { intros req. subst daily.
    destruct (analyze_route_failure rt req aproc s1 k m H) as [s2 ->].
    now apply received_failed. }
  clear Ed. unfold Mobile.settle_response.
  simpl in St. destruct St as [St | [St | [St | []]]]; rewrite <- St; cbn.
  - destruct (F (Mobile.api.getDailyInsights (json resp))) as [code ->].
    repeat split; try discriminate; try congruence.
  - repeat split; try discriminate; try congruence.
    rewrite length_app. simpl. lia.
  - repeat split; try discriminate; try congruence.
    rewrite length_app. simpl. lia.
Qed.

Lemma dashboard_discards_server_insights_witness :
  let s := boot Node.new_year_2026 in
  let o := latest_metrics_route Node.runtime Mobile.api.getLatestMetrics healthy s in
  let s1 := default s (snd <$> o) in
  let st' := Mobile.Dashboard.loadDashboardData
               (Mobile.received (JStr "ERR_BAD_RESPONSE") s o)
               (fun req => Mobile.received (JStr "ERR_BAD_RESPONSE") s1
                             (analyze_route Node.runtime req crashing s1))
               Mobile.Dashboard.initial in
  Mobile.Dashboard.insights st' = Mobile.Dashboard.fallback_insights /\
  Mobile.Dashboard.loading st' = false.
Proof.
  intros s o s1 st'.
  destruct (dashboard_discards_server_insights Node.runtime
              (JStr "ERR_BAD_RESPONSE") healthy crashing s
              Mobile.Dashboard.initial NonZeroExit "boom")
    as (resp & R & Y & _ & L & _).
  - repeat constructor; simpl; lia.
  - reflexivity.
  - split; [| exact L]. apply Y.
    assert (E : fst <$> o = Some resp) by exact R.
    vm_compute in E. inversion E. reflexivity.
Defined.

(** X23.  A chat message from the mobile app while the agent program
    fails: the chat screen adds the user's message and then one reply of
    its own, tagged 'system', that says it has trouble connecting; the
    canned reply the server sends with its 500 is not what is shown. *)
Theorem chat_screen_discards_server_reply
    (rt : Runtime) (trim : string -> string)
    (encode : Mobile.ChatAgent.Message -> JValue) (bad : JValue) (t1 t2 : Z)
    (mproc aproc : Trace) (s : State) (question : string)
    (st : Mobile.ChatAgent.State) k m :
  trim question <> EmptyString ->
  spec_invoke rt 30000 aproc = Err k m ->
  let st' := Mobile.ChatAgent.sendMessage trim encode t1 t2
               (fun req => Mobile.received bad s (chat_route rt req mproc aproc s))
               (Some question) st in
  exists code,
    Mobile.ChatAgent.messages st' =
      (Mobile.ChatAgent.messages st ++
       [ Mobile.ChatAgent.userMessage t1 question;
         Mobile.ChatAgent.errorResponse t2 code ])%list /\
    Mobile.ChatAgent.agent (Mobile.ChatAgent.errorResponse t2 code) = JStr "system" /\
    Some (Mobile.ChatAgent.text (Mobile.ChatAgent.errorResponse t2 code)) <>
      get_prop "response" (json chat_failure) /\
    Mobile.ChatAgent.isLoading st' = false.
Proof.
  intros Ht H. cbv zeta. unfold Mobile.ChatAgent.sendMessage.
  cbn [default from_option id].
  destruct (trim question) as [| c rest] eqn:E; [now destruct Ht |].
  set (req := Mobile.api.chatWithAgent _ _).
  destruct (chat_route_failure rt req mproc aproc s k m H) as [s' ->].
  destruct (received_failed bad s chat_failure s' eq_refl) as [code ->].
  exists code. cbn [Mobile.ChatAgent.messages Mobile.ChatAgent.isLoading].
  rewrite <- app_assoc. repeat split.
  unfold Mobile.ChatAgent.errorResponse. cbn [Mobile.ChatAgent.text].
  destruct (Mobile.is_code code "NETWORK_ERROR" || Mobile.is_code code "ECONNREFUSED");
    vm_compute; discriminate.
Qed.

Lemma chat_screen_discards_server_reply_witness :
  let s := boot Node.new_year_2026 in
  let st := {| Mobile.ChatAgent.messages := [];
               Mobile.ChatAgent.inputText := EmptyString;
               Mobile.ChatAgent.isLoading := false |} in
  let st' := Mobile.ChatAgent.sendMessage (fun x => x) (fun _ => JObj []) 5 9
               (fun req => Mobile.received (JStr "ERR_BAD_RESPONSE") s
                             (chat_route Node.runtime req healthy crashing s))
               (Some "How's my recovery?") st in
  exists code,
    Mobile.ChatAgent.messages st' =
      (Mobile.ChatAgent.messages st ++
       [ Mobile.ChatAgent.userMessage 5 "How's my recovery?";
         Mobile.ChatAgent.errorResponse 9 code ])%list /\
    Mobile.ChatAgent.agent (Mobile.ChatAgent.errorResponse 9 code) = JStr "system" /\
    Some (Mobile.ChatAgent.text (Mobile.ChatAgent.errorResponse 9 code)) <>
      get_prop "response" (json chat_failure) /\
    Mobile.ChatAgent.isLoading st' = false.
Proof.
  apply (chat_screen_discards_server_reply Node.runtime (fun x => x)
           (fun _ => JObj []) (JStr "ERR_BAD_RESPONSE") 5 9 healthy crashing
           (boot Node.new_year_2026) "How's my recovery?"
           {| Mobile.ChatAgent.messages := [];
              Mobile.ChatAgent.inputText := EmptyString;
              Mobile.ChatAgent.isLoading := false |} NonZeroExit "boom").
  - discriminate.
  - reflexivity.
Defined.

(** X24.  The chat route never reads the [conversation_history] the
    chat screen posts (its last ten messages).  So for a given question,
    server state and pair of processes there is one reply that the
    screen shows after the user's message for every conversation whose
    request [express.json()] hands on to the route; a request the
    middleware turns away, such as one whose history is over its size
    limit, is answered by the middleware and is not covered. *)
Theorem chat_reply_ignores_conversation
    (rt : Runtime) (refusal : Request -> option Response)
    (trim : string -> string)
    (encode : Mobile.ChatAgent.Message -> JValue) (bad : JValue) (t1 t2 : Z)
    (mproc aproc : Trace) (s : State) (question : string) :
  trim question <> EmptyString ->
  exists reply, forall st,
    refusal (Mobile.api.chatWithAgent question
               (JArr (encode <$>
                        Mobile.slice_last 10 (Mobile.ChatAgent.messages st))))
      = None ->
    Mobile.ChatAgent.messages
      (Mobile.ChatAgent.sendMessage trim encode t1 t2
         (fun req =>
            Mobile.received bad s
              (express_json refusal
                 (fun req => chat_route rt req mproc aproc) req s))
         (Some question) st) =
    (Mobile.ChatAgent.messages st ++
     [Mobile.ChatAgent.userMessage t1 question; reply])%list /\
    Mobile.ChatAgent.isUser reply = false.
Proof.
  intros Ht.
  exists (match Mobile.received bad s
                  (chat_route rt (Mobile.api.chatWithAgent question (JArr []))
                     mproc aproc s) with
          | Mobile.Responded data =>
              match get_prop "response" data with
              | Some response => Mobile.ChatAgent.agentMessage t2 data response
              | None => Mobile.ChatAgent.errorResponse t2 JUndefined
              end
          | Mobile.Failed code => Mobile.ChatAgent.errorResponse t2 code
          end).
  intros st Hpass. unfold Mobile.ChatAgent.sendMessage.
  cbn [default from_option id].
  destruct (trim question) as [| c rest] eqn:E; [now destruct Ht |].
  cbn [Mobile.ChatAgent.messages]. rewrite <- app_assoc.
  unfold express_json. rewrite Hpass.
  unfold Mobile.api.chatWithAgent, Mobile.with_headers.
  assert (I : chat_route rt
                {| user_id := Some "demo-user";
                   body := JObj
                     [("message", JStr question);
                      ("conversation_history",
                        JArr (fmap (M := list) encode
                                (Mobile.slice_last 10
                                   (Mobile.ChatAgent.messages st))))] |}
                mproc aproc s =
              chat_route rt
                {| user_id := Some "demo-user";
                   body := JObj [("message", JStr question);
                                 ("conversation_history", JArr [])] |}
                mproc aproc s)
    by (apply chat_route_ignores_history; reflexivity).
  split; [now rewrite I |].
  destruct (Mobile.received _ _ _) as [data | code]; [| reflexivity].
  now destruct (get_prop "response" data).
Qed.

Lemma chat_reply_ignores_conversation_witness :
  exists reply,
    (forall st,
       three_messages
         (Mobile.api.chatWithAgent "How's my recovery?"
            (JArr ((fun _ => JObj []) <$>
                     Mobile.slice_last 10 (Mobile.ChatAgent.messages st))))
         = None ->
       Mobile.ChatAgent.messages
         (Mobile.ChatAgent.sendMessage (fun x => x) (fun _ => JObj []) 5 9
            (fun req =>
               Mobile.received (JStr "ERR_BAD_RESPONSE") (boot Node.new_year_2026)
                 (express_json three_messages
                    (fun req => chat_route Node.runtime req healthy replying)
                    req (boot Node.new_year_2026)))
            (Some "How's my recovery?") st) =
       (Mobile.ChatAgent.messages st ++
        [Mobile.ChatAgent.userMessage 5 "How's my recovery?"; reply])%list /\
       Mobile.ChatAgent.isUser reply = false) /\
    three_messages
      (Mobile.api.chatWithAgent "How's my recovery?"
         (JArr ((fun _ => JObj []) <$>
                  Mobile.slice_last 10
                    [Mobile.ChatAgent.userMessage 1 "I slept badly"]))) = None.
Proof.
  destruct (chat_reply_ignores_conversation Node.runtime three_messages
              (fun x => x) (fun _ => JObj []) (JStr "ERR_BAD_RESPONSE") 5 9
              healthy replying (boot Node.new_year_2026) "How's my recovery?")
    as [reply R].
  - discriminate.
  - exists reply. split; [exact R | reflexivity].
Defined.
